(** * ACL conversion 2.x -> 3.x: a shallow embedding of [convert_acl.py]

    The development follows the layout of the Python source:

    - [Py]           the few string built-ins the script relies on
                     ([str.split], [in], [os.linesep], exceptions);
    - [TextAce]      class [TextAce], one line of [nfs4_getfacl] output;
    - [Acl]          class [Acl], the rule engine ([convert]) and the
                     serializer ([toString]);
    - [AclConverter] class [AclConverter], the tree-walk callback;
    - [posixpath], [ParallelTreeWalk]  [tree_walk.py]: the shared queue and
                     the worker threads as a transition system in which any
                     thread may move next.

    Python [str] values are modelled as [string] (a sequence of bytes of the
    UTF-8 encoding: the script only ever looks for the ASCII characters
    [:], [#], [i], [f], [d] and the line separator, none of which occurs
    inside a multi-byte sequence).  Python [int] counters are [nat]. *)

From Stdlib Require Import String Ascii List Bool Arith ZArith Lia Permutation.
Import ListNotations.
Open Scope string_scope.

(* ================================================================= *)
(** ** Python built-ins used by the script *)

Module Py.

(** Exceptions that can travel through the script.  [RuntimeError] is the
    one raised by [Acl.convert]; [AssertionError] comes from the
    [assert len(data) == 4] of [TextAce.__init__]; [OtherError] stands for
    whatever the standard library raises ([subprocess.run], [decode]). *)
Inductive exn : Type :=
| RuntimeError (msg : string)
| AssertionError
| OtherError (msg : string).

(** [str(ex)] as used by ["{}".format(ex)]. *)
Definition str_exn (e : exn) : string :=
  match e with
  | RuntimeError msg => msg
  | AssertionError => ""
  | OtherError msg => msg
  end.

(** Outcome of a call: a returned value or a raised exception. *)
Inductive result (A : Type) : Type :=
| Return (a : A)
| Raise (e : exn).
Arguments Return {A} a.
Arguments Raise {A} e.

(** [os.linesep] on the POSIX hosts where [nfs4_getfacl] exists. *)
Definition LF : ascii := "010"%char.
Definition linesep : string := String LF EmptyString.

(** [s.split(sep)] for a one-character separator: never returns an empty
    list, [""] splits into [[""]]. *)
Fixpoint split (sep : ascii) (s : string) : list string :=
  match s with
  | EmptyString => [EmptyString]
  | String c rest =>
      if Ascii.eqb c sep then EmptyString :: split sep rest
      else match split sep rest with
           | field :: fields => String c field :: fields
           | [] => [String c EmptyString]
           end
  end.

(** [sub in s]: substring test. *)
Fixpoint str_in (sub s : string) : bool :=
  if prefix sub s then true
  else match s with
       | EmptyString => false
       | String _ rest => str_in sub rest
       end.

(** [sep.join(fields)], used only to state properties of [split]. *)
Fixpoint join (sep : ascii) (fields : list string) : string :=
  match fields with
  | [] => EmptyString
  | [field] => field
  | field :: rest => field ++ String sep (join sep rest)
  end.

(** [s.strip()] on ASCII text: the white space of [str.isspace] below
    code point 128 is removed at both ends. *)
Definition isspace (c : ascii) : bool :=
  let n := nat_of_ascii c in
  ((9 <=? n) && (n <=? 13) || (28 <=? n) && (n <=? 32))%nat.

Fixpoint lstrip (s : string) : string :=
  match s with
  | EmptyString => EmptyString
  | String c rest => if isspace c then lstrip rest else s
  end.

Fixpoint rstrip (s : string) : string :=
  match s with
  | EmptyString => EmptyString
  | String c rest =>
      match rstrip rest with
      | EmptyString => if isspace c then EmptyString else String c EmptyString
      | kept => String c kept
      end
  end.

Definition strip_ascii (s : string) : string := rstrip (lstrip s).

(** [sum(1 for x in xs if p(x))]. *)
Definition count {A : Type} (p : A -> bool) (xs : list A) : nat :=
  list_sum (map (fun _ => 1%nat) (filter p xs)).

End Py.
Import Py.

(* ================================================================= *)
(** ** class TextAce *)

Definition SPECIAL_PRINCIPALS : list string :=
  ["OWNER@"; "GROUP@"; "EVERYONE@"].

Module TextAce.

Record t : Type := mk {
  _type : string;
  _flags : string;
  _principal : string;
  _permissions : string
}.

(** [TextAce.__init__]: split at [":"], exactly four fields or
    [AssertionError]. *)
Definition __init__ (string : String.string) : result t :=
  match split ":" string with
  | [d0; d1; d2; d3] => Return (mk d0 d1 d2 d3)
  | _ => Raise AssertionError
  end.

Definition hasInheritanceFlag (self : t) : bool :=
  existsb (fun flag => str_in flag (_flags self)) ["i"; "f"; "d"].

Definition hasSpecialPrincipal (self : t) : bool :=
  existsb (fun principal => String.eqb (_principal self) principal)
          SPECIAL_PRINCIPALS.

Definition getType (self : t) : string := _type self.
Definition getFlags (self : t) : string := _flags self.
Definition getPrincipal (self : t) : string := _principal self.
Definition getPermissions (self : t) : string := _permissions self.

Definition isAllowAce (self : t) : bool := String.eqb (_type self) "A".
Definition isDenyAce (self : t) : bool := String.eqb (_type self) "D".

(** ["{}:{}:{}:{}{}".format(type, flags, principal, permissions, linesep)] *)
Definition toString (self : t) : string :=
  _type self ++ ":" ++ _flags self ++ ":" ++ _principal self ++ ":"
    ++ _permissions self ++ linesep.

End TextAce.

(* ================================================================= *)
(** ** class Acl *)

Module Acl.

Record t : Type := mk {
  _aces : list TextAce.t;
  _added_aces : list TextAce.t
}.

(** The body of the [for line in string.split(os.linesep)] loop of
    [Acl.__init__]: blank lines and [#] comments are skipped, every other
    line must parse. *)
Fixpoint parse_lines (lines : list string) (aces : list TextAce.t)
  : result (list TextAce.t) :=
  match lines with
  | [] => Return aces
  | line :: rest =>
      match line with
      | EmptyString => parse_lines rest aces
      | String c _ =>
          if Ascii.eqb c "#" then parse_lines rest aces
          else match TextAce.__init__ line with
               | Return ace => parse_lines rest (aces ++ [ace])
               | Raise e => Raise e
               end
      end
  end.

Definition __init__ (string : String.string) : result t :=
  match parse_lines (split LF string) [] with
  | Return aces => Return (mk aces [])
  | Raise e => Raise e
  end.

(** *** A small state-and-exception monad for the methods that mutate
    [self]: a computation maps the object to an outcome and the object as
    it is left behind (also when an exception escapes). *)
Definition M (A : Type) : Type := t -> result A * t.

Definition ret {A} (a : A) : M A := fun self => (Return a, self).
Definition raise {A} (e : exn) : M A := fun self => (Raise e, self).
Definition bind {A B} (m : M A) (k : A -> M B) : M B :=
  fun self =>
    match m self with
    | (Return a, self') => k a self'
    | (Raise e, self') => (Raise e, self')
    end.
Definition lift {A} (r : result A) : M A := fun self => (r, self).
Definition get_aces : M (list TextAce.t) :=
  fun self => (Return (_aces self), self).
(** [self._added_aces.append(ace)] *)
Definition append_added (ace : TextAce.t) : M unit :=
  fun self => (Return tt, mk (_aces self) (_added_aces self ++ [ace])).

Declare Scope acl_scope.
Delimit Scope acl_scope with acl.
Notation "x <- m ;; k" := (bind m (fun x => k))
  (at level 61, m at next level, right associativity) : acl_scope.
Notation "m ;;; k" := (bind m (fun _ => k))
  (at level 61, right associativity) : acl_scope.
Open Scope acl_scope.

(** Lines 127-132: how many special principals own an ACE with an
    inheritance flag. *)
Definition inherits_for (principal : string) (ace : TextAce.t) : bool :=
  TextAce.hasInheritanceFlag ace
    && String.eqb (TextAce.getPrincipal ace) principal.

Definition covered_count (aces : list TextAce.t) : nat :=
  fold_left
    (fun num_aces principal =>
       if (0 <? count (inherits_for principal) aces)%nat
       then (num_aces + 1)%nat else num_aces)
    SPECIAL_PRINCIPALS 0%nat.

(** Lines 145-152: the two per-principal counters. *)
Definition num_allow_aces (principal : string) (aces : list TextAce.t) : nat :=
  count (fun ace => String.eqb (TextAce.getPrincipal ace) principal
                    && TextAce.isAllowAce ace
                    && negb (TextAce.hasInheritanceFlag ace)) aces.

Definition num_deny_aces (principal : string) (aces : list TextAce.t) : nat :=
  count (fun ace => String.eqb (TextAce.getPrincipal ace) principal
                    && TextAce.isDenyAce ace
                    && negb (TextAce.hasInheritanceFlag ace)) aces.

Definition too_many_rules (principal : string) : string :=
  "Cannot convert ACL as there are too many rules for principal "
    ++ principal ++ " ".

(** Lines 144-156: the loop over the special principals, raising at the
    first principal with more than one rule. *)
Fixpoint check_rules (principals : list string) (aces : list TextAce.t)
  : M unit :=
  match principals with
  | [] => ret tt
  | principal :: rest =>
      if (1 <? num_allow_aces principal aces)%nat
         || (1 <? num_deny_aces principal aces)%nat
      then raise (RuntimeError (too_many_rules principal))
      else check_rules rest aces
  end.

(** ["{}:fdi{}:{}:{}".format(type, flags, principal, permissions)] *)
Definition new_ace_line (ace : TextAce.t) : string :=
  TextAce.getType ace ++ ":fdi" ++ TextAce.getFlags ace ++ ":"
    ++ TextAce.getPrincipal ace ++ ":" ++ TextAce.getPermissions ace.

(** Lines 158-165: the loop that clones the allow ACEs of the special
    principals. *)
Fixpoint add_aces (aces : list TextAce.t) : M unit :=
  match aces with
  | [] => ret tt
  | ace :: rest =>
      (if TextAce.isAllowAce ace && TextAce.hasSpecialPrincipal ace
       then new_ace <- lift (TextAce.__init__ (new_ace_line ace)) ;;
            append_added new_ace
       else ret tt) ;;;
      add_aces rest
  end.

Definition not_all_inherited : string :=
  "Cannot convert ACL as inheritance is not set for all special principals".

(** [Acl.convert]: [Return true] when converted, [Return false] when
    there is nothing to do, an exception when the ACL cannot be
    converted. *)
Definition convert : M bool :=
  aces <- get_aces ;;
  if (count TextAce.hasInheritanceFlag aces =? 0)%nat then ret false
  else
    let num_aces := covered_count aces in
    if (num_aces =? List.length SPECIAL_PRINCIPALS)%nat then ret false
    else if (0 <? num_aces)%nat then raise (RuntimeError not_all_inherited)
    else
      check_rules SPECIAL_PRINCIPALS aces ;;;
      add_aces aces ;;;
      ret true.

(** [Acl.toString]: the original ACEs, then the added ones. *)
Definition toString (self : t) : string :=
  let result := "" in
  let result :=
    fold_left (fun result ace => result ++ TextAce.toString ace)
              (_aces self) result in
  fold_left (fun result ace => result ++ TextAce.toString ace)
            (_added_aces self) result.

End Acl.

(* ================================================================= *)
(** ** class AclConverter *)

Module AclConverter.

(** What a worker leaves behind, in order: the commands it ran
    ([shell] tells whether [shell=True] was passed) and the messages it
    printed on the two streams. *)
Inductive event : Type :=
| Ran (shell : bool) (command : string)
| Stdout (message : string)
| Stderr (message : string).

(** The [subprocess.CompletedProcess] fields the script reads; the two
    streams are kept as the outcome of [.decode()]. *)
Record CompletedProcess : Type := {
  returncode : Z;
  stdout_decode : result string;
  stderr_decode : result string
}.

(** The operating system as seen from one call of [processEntry]. *)
Record World : Type := {
  islink : string -> bool;
  isdir : string -> bool;
  subprocess_run : bool -> string -> result CompletedProcess
}.

Record Options : Type := { dry_run : bool }.

(** Computations that print and may raise. *)
Definition IO (A : Type) : Type := (result A * list event)%type.

Definition ret {A} (a : A) : IO A := (Return a, []).
Definition bind {A B} (m : IO A) (k : A -> IO B) : IO B :=
  match m with
  | (Return a, tr) => let (r, tr') := k a in (r, (tr ++ tr')%list)
  | (Raise e, tr) => (Raise e, tr)
  end.
Definition emit (ev : event) : IO unit := (Return tt, [ev]).
Definition lift {A} (r : result A) : IO A := (r, []).
(** [try: body  except Exception as ex: handler(ex)] *)
Definition try_except {A} (body : IO A) (handler : exn -> IO A) : IO A :=
  match body with
  | (Return a, tr) => (Return a, tr)
  | (Raise e, tr) => let (r, tr') := handler e in (r, (tr ++ tr')%list)
  end.

Declare Scope io_scope.
Notation "x <- m ;; k" := (bind m (fun x => k))
  (at level 61, m at next level, right associativity) : io_scope.
Notation "m ;;; k" := (bind m (fun _ => k))
  (at level 61, right associativity) : io_scope.
Open Scope io_scope.

Definition dquote : string := String "034"%char EmptyString.

(** ["nfs4_getfacl {}".format(path)], before [shlex.split]. *)
Definition getfacl_command (path : string) : string :=
  "nfs4_getfacl " ++ path.

(** The f-string handed to the shell for the write-back. *)
Definition setfacl_command (acl_text path : string) : string :=
  "echo " ++ dquote ++ acl_text ++ dquote ++ " | nfs4_setfacl -S - " ++ path.

(** What [callOnError] prints. *)
Definition failure_report (path error : string) : event :=
  Stderr ("Failed to process " ++ path ++ ": " ++ error).

Section Callback.

(** [str.strip], the filesystem and the command-line options. *)
Variable strip : string -> string.
Variable world : World.
Variable options : Options.

Definition run (shell : bool) (command : string) : IO CompletedProcess :=
  emit (Ran shell command) ;;;
  lift (subprocess_run world shell command).

(** [_logMessage] and [_logError] record the message handed to [print].
    The lock around [print] and a [print] that fails (a closed stream,
    a broken pipe) are outside this model: both streams are taken to
    accept every message, so nothing below speaks about exceptions raised
    while printing. *)
Definition _logMessage (message : string) : IO unit :=
  emit (Stdout message).

Definition _logError (message : string) : IO unit :=
  emit (Stderr message).

(** The second [def callOnError] replaces the first one in the class
    body; [error] arrives already rendered by [format]. *)
Definition callOnError (path error : string) : IO unit :=
  _logError ("Failed to process " ++ path ++ ": " ++ error).

Definition _processDirectory (path : string) : IO unit :=
  get_out <- run false (getfacl_command path) ;;
  if negb (returncode get_out =? 0)%Z then
    err <- lift (stderr_decode get_out) ;;
    callOnError path ("Failed to run nfs4_getfacl: " ++ strip err)
  else
    text <- lift (stdout_decode get_out) ;;
    acl <- lift (Acl.__init__ text) ;;
    let (converted, acl) := Acl.convert acl in
    converted <- lift converted ;;
    if negb converted then ret tt
    else if dry_run options then
      _logMessage (path ++ linesep ++ Acl.toString acl)
    else
      set_out <- run true (setfacl_command (Acl.toString acl) path) ;;
      if negb (returncode set_out =? 0)%Z then
        err <- lift (stderr_decode set_out) ;;
        callOnError path ("Failed to run nfs4_setfacl: " ++ strip err)
      else ret tt.

Definition processEntry (path : string) : IO bool :=
  try_except
    (if negb (islink world path) && isdir world path
     then _processDirectory path ;;; ret true
     else ret false)
    (fun ex => callOnError path (str_exn ex) ;;; ret false).

End Callback.

End AclConverter.

(* ================================================================= *)
(** ** Vocabulary of the specification *)

Module Spec.

(** A principal is covered when one of its ACEs carries an inheritance
    flag; [coveredCount] counts the covered special principals. *)
Definition covered (aces : list TextAce.t) (principal : string) : bool :=
  existsb (fun ace => TextAce.hasInheritanceFlag ace
                      && String.eqb (TextAce._principal ace) principal) aces.

Definition coveredCount (aces : list TextAce.t) : nat :=
  List.length (filter (covered aces) SPECIAL_PRINCIPALS).

(** Step 3 for one principal: at most one allow and at most one deny ACE
    without inheritance flag ([rules_ok]), or more than one of either
    ([rules_broken]). *)
Definition rules_ok (aces : list TextAce.t) (principal : string) : Prop :=
  (Acl.num_allow_aces principal aces <= 1)%nat
  /\ (Acl.num_deny_aces principal aces <= 1)%nat.

Definition rules_broken (aces : list TextAce.t) (principal : string) : Prop :=
  (1 < Acl.num_allow_aces principal aces)%nat
  \/ (1 < Acl.num_deny_aces principal aces)%nat.

(** Step 4 selects the allow ACEs of the special principals. *)
Definition clonable (ace : TextAce.t) : bool :=
  TextAce.isAllowAce ace && TextAce.hasSpecialPrincipal ace.

(** The ACE synthesized for an allow ACE of a special principal. *)
Definition inherit_copy (ace : TextAce.t) : TextAce.t :=
  TextAce.mk (TextAce._type ace) ("fdi" ++ TextAce._flags ace)
             (TextAce._principal ace) (TextAce._permissions ace).

(** Parsed fields never contain the field separator. *)
Fixpoint has_char (c : ascii) (s : string) : bool :=
  match s with
  | EmptyString => false
  | String c' rest => Ascii.eqb c' c || has_char c rest
  end.

Definition well_formed (ace : TextAce.t) : bool :=
  negb (has_char ":" (TextAce._type ace))
    && negb (has_char ":" (TextAce._flags ace))
    && negb (has_char ":" (TextAce._principal ace))
    && negb (has_char ":" (TextAce._permissions ace)).

(** The lines of an ACL listing that carry an ACE. *)
Definition is_ace_line (line : string) : bool :=
  match line with
  | EmptyString => false
  | String c _ => negb (Ascii.eqb c "#")
  end.

(** A line together with its line separator. *)
Definition terminated (line : string) : string := line ++ linesep.

Definition serialize (aces : list TextAce.t) : string :=
  String.concat "" (map TextAce.toString aces).

End Spec.

(* ================================================================= *)
(** ** Sample data *)

Definition ace (type flags principal permissions : string) : TextAce.t :=
  TextAce.mk type flags principal permissions.

Definition example_text : string :=
  "A::OWNER@:rwaDxtnNcy" ++ linesep ++
  "A:g:GROUP@:rxtncy" ++ linesep ++
  "A:g:EVERYONE@:rxtncy" ++ linesep ++
  "A:fdg:readers:rxtncy" ++ linesep ++
  "A:fdg:writers:rwaDxtTnNcCy" ++ linesep.

Definition example_aces : list TextAce.t :=
  [ ace "A" "" "OWNER@" "rwaDxtnNcy";
    ace "A" "g" "GROUP@" "rxtncy";
    ace "A" "g" "EVERYONE@" "rxtncy";
    ace "A" "fdg" "readers" "rxtncy";
    ace "A" "fdg" "writers" "rwaDxtTnNcCy" ].

Definition example_added : list TextAce.t :=
  [ ace "A" "fdi" "OWNER@" "rwaDxtnNcy";
    ace "A" "fdig" "GROUP@" "rxtncy";
    ace "A" "fdig" "EVERYONE@" "rxtncy" ].

(** A filesystem with the single directory [/srv/data]; [nfs4_getfacl]
    completes as [listing] says and [nfs4_setfacl] succeeds. *)
Definition completed (code : Z) (out err : string)
  : AclConverter.CompletedProcess :=
  {| AclConverter.returncode := code;
     AclConverter.stdout_decode := Return out;
     AclConverter.stderr_decode := Return err |}.

Definition one_directory (listing : AclConverter.CompletedProcess)
  : AclConverter.World :=
  {| AclConverter.islink := fun _ => false;
     AclConverter.isdir := fun path => String.eqb path "/srv/data";
     AclConverter.subprocess_run := fun shell _ =>
       if shell then Return (completed 0 "" "") else Return listing |}.

Definition write_back : AclConverter.Options := {| AclConverter.dry_run := false |}.
Definition dry : AclConverter.Options := {| AclConverter.dry_run := true |}.

(** A host without the NFSv4 ACL tools: every command fails to start. *)
Definition missing_tools : AclConverter.World :=
  {| AclConverter.islink := fun _ => false;
     AclConverter.isdir := fun _ => true;
     AclConverter.subprocess_run := fun _ _ =>
       Raise (OtherError "[Errno 2] No such file or directory: 'nfs4_getfacl'") |}.

(* ================================================================= *)
(** ** The text of an ACE *)

Module Wire.

(** Number of occurrences of a character. *)
Fixpoint count_char (c : ascii) (s : string) : nat :=
  match s with
  | EmptyString => 0%nat
  | String c' rest =>
      if Ascii.eqb c' c then S (count_char c rest) else count_char c rest
  end.

(** The four fields of an ACE with their separators: what [toString]
    prints before the line separator. *)
Definition line_of (a : TextAce.t) : string :=
  TextAce._type a ++ ":" ++ TextAce._flags a ++ ":" ++ TextAce._principal a
    ++ ":" ++ TextAce._permissions a.

(** An ACE as [Acl.__init__] can produce it: no [":"] inside a field, no
    line separator anywhere, and a line that is neither blank nor a
    comment. *)
Definition listable (a : TextAce.t) : bool :=
  Spec.well_formed a
    && negb (Spec.has_char LF (line_of a))
    && Spec.is_ace_line (line_of a).

(** All three inheritance flags are set. *)
Definition inherit_only (a : TextAce.t) : bool :=
  Spec.has_char "f" (TextAce._flags a)
    && Spec.has_char "d" (TextAce._flags a)
    && Spec.has_char "i" (TextAce._flags a).

End Wire.


(* ================================================================= *)
(** ** tree_walk.py *)

Module posixpath.

(** [os.path.join(a, b)] on POSIX. *)
Definition startswith (c : ascii) (s : string) : bool :=
  match s with
  | EmptyString => false
  | String c' _ => Ascii.eqb c' c
  end.

Fixpoint endswith (c : ascii) (s : string) : bool :=
  match s with
  | EmptyString => false
  | String c' EmptyString => Ascii.eqb c' c
  | String _ rest => endswith c rest
  end.

Definition join (a b : string) : string :=
  if startswith "/" b then b
  else match a with
       | EmptyString => a ++ b
       | _ => if endswith "/" a then a ++ b else a ++ "/" ++ b
       end.

End posixpath.

Module ParallelTreeWalk.

Import AclConverter.

(** class [Callback]: the two methods the walk calls. *)
Record Callback : Type := {
  cb_processEntry : string -> IO bool;
  cb_callOnError : string -> exn -> IO unit
}.

(** Where a worker thread stands in [_thread_task]. *)
Inductive thread : Type :=
| Waiting                                            (* in [queue.get()] *)
| Expanding (path : string) (dentries : list string) (* in the [for] loop *)
| Finishing                                          (* before [task_done()] *)
| Dead (e : exn).                                    (* an exception escaped *)

(** The shared [queue.Queue] (its items and its count of unfinished
    tasks), the worker threads, and what the callback did so far. *)
Record state : Type := {
  _work_queue : list string;
  unfinished_tasks : nat;
  threads : list thread;
  output : list event
}.

Definition initial : state :=
  {| _work_queue := []; unfinished_tasks := 0; threads := []; output := [] |}.

Fixpoint update {A : Type} (i : nat) (x : A) (l : list A) : list A :=
  match l, i with
  | [], _ => []
  | _ :: rest, O => x :: rest
  | y :: rest, S i' => y :: update i' x rest
  end.

Definition set_thread (i : nat) (t : thread) (s : state) : state :=
  {| _work_queue := _work_queue s; unfinished_tasks := unfinished_tasks s;
     threads := update i t (threads s); output := output s |}.

Definition log (tr : list event) (s : state) : state :=
  {| _work_queue := _work_queue s; unfinished_tasks := unfinished_tasks s;
     threads := threads s; output := (output s ++ tr)%list |}.

(** [queue.put(path)] *)
Definition put (path : string) (s : state) : state :=
  {| _work_queue := (_work_queue s ++ [path])%list;
     unfinished_tasks := S (unfinished_tasks s);
     threads := threads s; output := output s |}.

Section Walk.

Variable callback : Callback.
Variable listdir : string -> result (list string).
Variable num_threads : nat.

(** [start]: the root is processed by the caller; only when it is
    expandable are the workers started and the root queued. *)
Definition start (path : string) (s : state) : result unit * state :=
  match cb_processEntry callback path with
  | (Return true, tr) =>
      (Return tt,
       put path
         {| _work_queue := _work_queue s; unfinished_tasks := unfinished_tasks s;
            threads := (threads s ++ repeat Waiting num_threads)%list;
            output := (output s ++ tr)%list |})
  | (Return false, tr) => (Return tt, log tr s)
  | (Raise e, tr) => (Raise e, log tr s)
  end.

(** [queue.join()] returns when no task is unfinished. *)
Definition joined (s : state) : bool := (unfinished_tasks s =? 0)%nat.

(** The [except Exception as e] clause of thread [i], for the directory
    [path] it took from the queue. *)
Definition on_exception (i : nat) (path : string) (e : exn) (s : state) : state :=
  match cb_callOnError callback path e with
  | (Return _, tr) => set_thread i Finishing (log tr s)
  | (Raise e', tr) => set_thread i (Dead e') (log tr s)
  end.

(** One move of thread [i]; [None] when it cannot move (blocked in [get],
    dead, or not a thread). *)
Definition step_thread (i : nat) (s : state) : option state :=
  match nth_error (threads s) i with
  | Some Waiting =>
      match _work_queue s with
      | [] => None
      | path :: rest =>
          let s := {| _work_queue := rest; unfinished_tasks := unfinished_tasks s;
                      threads := threads s; output := output s |} in
          match listdir path with
          | Return dentries => Some (set_thread i (Expanding path dentries) s)
          | Raise e => Some (on_exception i path e s)
          end
      end
  | Some (Expanding path []) => Some (set_thread i Finishing s)
  | Some (Expanding path (dentry :: dentries)) =>
      let dentry_path := posixpath.join path dentry in
      match cb_processEntry callback dentry_path with
      | (Return true, tr) =>
          Some (set_thread i (Expanding path dentries) (put dentry_path (log tr s)))
      | (Return false, tr) =>
          Some (set_thread i (Expanding path dentries) (log tr s))
      | (Raise e, tr) => Some (on_exception i path e (log tr s))
      end
  | Some Finishing =>
      match unfinished_tasks s with
      | O => Some (set_thread i
                     (Dead (OtherError "task_done() called too many times")) s)
      | S n =>
          Some (set_thread i Waiting
                  {| _work_queue := _work_queue s; unfinished_tasks := n;
                     threads := threads s; output := output s |})
      end
  | Some (Dead _) | None => None
  end.

(** The threads move in the order given by a schedule; a thread that
    cannot move is passed over. *)
Fixpoint run_schedule (schedule : list nat) (s : state) : state :=
  match schedule with
  | [] => s
  | i :: rest =>
      match step_thread i s with
      | Some s' => run_schedule rest s'
      | None => run_schedule rest s
      end
  end.

End Walk.

(** A thread that holds a task it has not marked as done. *)
Definition busy (t : thread) : bool :=
  match t with
  | Waiting => false
  | _ => true
  end.

Definition busy_threads (s : state) : nat := count busy (threads s).

(** The counter of the queue accounts for the queued directories and for
    the threads that took one and have not called [task_done] yet. *)
Definition balanced (s : state) : Prop :=
  unfinished_tasks s = (List.length (_work_queue s) + busy_threads s)%nat.

(** The answer of the callback, read as the condition of an [if]. *)
Definition expandable (callback : Callback) (path : string) : bool :=
  match fst (cb_processEntry callback path) with
  | Return true => true
  | _ => false
  end.

(** A path the callback has found expandable. *)
Definition approved (callback : Callback) (path : string) : Prop :=
  exists tr, cb_processEntry callback path = (Return true, tr).

(** The directories a state still has in hand: queued or being listed. *)
Definition expanded (t : thread) : list string :=
  match t with
  | Expanding path _ => [path]
  | _ => []
  end.

Definition held (s : state) : list string :=
  (_work_queue s ++ flat_map expanded (threads s))%list.

End ParallelTreeWalk.

(** [AclConverter] as the callback of the walk. *)
Definition acl_callback (strip : string -> string)
           (world : AclConverter.World) (options : AclConverter.Options)
  : ParallelTreeWalk.Callback :=
  {| ParallelTreeWalk.cb_processEntry :=
       AclConverter.processEntry strip world options;
     ParallelTreeWalk.cb_callOnError := fun path e =>
       AclConverter.callOnError path (str_exn e) |}.

(** A small tree: [/srv] holds the directory [data], the symbolic link
    [link] to a directory and the file [notes.txt]; [/srv/data] cannot be
    listed. *)
Definition sample_tree : AclConverter.World :=
  {| AclConverter.islink := fun path => String.eqb path "/srv/link";
     AclConverter.isdir := fun path =>
       String.eqb path "/srv" || String.eqb path "/srv/data"
       || String.eqb path "/srv/link";
     AclConverter.subprocess_run := fun shell _ =>
       if shell then Return (completed 0 "" "")
       else Return (completed 0 example_text "") |}.

Definition sample_listdir (path : string) : result (list string) :=
  if String.eqb path "/srv" then Return ["data"; "link"; "notes.txt"]
  else if String.eqb path "/srv/data"
       then Raise (OtherError "[Errno 13] Permission denied: '/srv/data'")
       else Raise (OtherError "[Errno 20] Not a directory").

Definition sample_callback : ParallelTreeWalk.Callback :=
  acl_callback strip_ascii sample_tree dry.

Definition sample_schedule : list nat := [0; 1; 0; 0; 1; 0; 0; 1; 1; 0]%nat.

(* ================================================================= *)
(** ** Strings: [split], [join] and friends *)

Section StringFacts.

Variable sep : ascii.

Lemma append_assoc (a b c : string) : (a ++ b) ++ c = a ++ (b ++ c).
Proof. induction a as [|x a IH]; simpl; [reflexivity | now rewrite IH]. Qed.

Lemma append_nil_r (a : string) : a ++ "" = a.
Proof. induction a as [|x a IH]; simpl; [reflexivity | now rewrite IH]. Qed.

Lemma split_not_nil (s : string) : split sep s <> [].
Proof.
  destruct s as [|c s]; simpl; [discriminate|].
  destruct (Ascii.eqb c sep); [discriminate|].
  destruct (split sep s); discriminate.
Qed.

(** Joining the fields again gives the string back. *)
Lemma join_split (s : string) : join sep (split sep s) = s.
Proof.
  induction s as [|c s IH]; [reflexivity|].
  simpl. destruct (Ascii.eqb_spec c sep) as [->|Hne].
  - pose proof (split_not_nil s) as Hnil.
    simpl. destruct (split sep s) as [|f fs] eqn:E; [contradiction|].
    simpl in IH |- *. now rewrite IH.
  - pose proof (split_not_nil s) as Hnil.
    destruct (split sep s) as [|f fs] eqn:E; [contradiction|].
    destruct fs as [|g fs]; simpl in IH |- *; now rewrite IH.
Qed.

Lemma split_no_sep (s : string) :
  Spec.has_char sep s = false -> split sep s = [s].
Proof.
  induction s as [|c s IH]; simpl; [reflexivity|].
  intros H. apply orb_false_iff in H as [Hc Hs].
  rewrite Hc, (IH Hs). reflexivity.
Qed.

Lemma split_app_sep (a rest : string) :
  Spec.has_char sep a = false ->
  split sep (a ++ String sep rest) = a :: split sep rest.
Proof.
  induction a as [|c a IH]; simpl; intros H.
  - now rewrite Ascii.eqb_refl.
  - apply orb_false_iff in H as [Hc Ha].
    rewrite Hc, (IH Ha). reflexivity.
Qed.

Lemma split_fields_no_sep (s : string) :
  Forall (fun field => Spec.has_char sep field = false) (split sep s).
Proof.
  induction s as [|c s IH]; simpl.
  - constructor; [reflexivity | constructor].
  - destruct (Ascii.eqb c sep) eqn:Hc.
    + constructor; [reflexivity | exact IH].
    + destruct (split sep s) as [|f fs]; [repeat constructor; simpl; now rewrite Hc|].
      inversion IH; subst. constructor; [simpl; now rewrite Hc | assumption].
Qed.

End StringFacts.

Lemma count_length {A} (p : A -> bool) (xs : list A) :
  count p xs = List.length (filter p xs).
Proof.
  unfold count. induction (filter p xs) as [|x l IH]; simpl; congruence.
Qed.

Lemma count_app {A} (p : A -> bool) (xs ys : list A) :
  count p (xs ++ ys) = (count p xs + count p ys)%nat.
Proof. rewrite !count_length, filter_app, length_app. reflexivity. Qed.

Lemma count_zero_iff {A} (p : A -> bool) (xs : list A) :
  count p xs = 0%nat <-> existsb p xs = false.
Proof.
  rewrite count_length. induction xs as [|x xs IH]; simpl; [tauto|].
  destruct (p x); simpl; [split; discriminate | exact IH].
Qed.

(* ================================================================= *)
(** ** TextAce: parsing and printing *)

Lemma TextAce_init_inv (line : string) (a : TextAce.t) :
  TextAce.__init__ line = Return a ->
  split ":" line = [TextAce._type a; TextAce._flags a;
                    TextAce._principal a; TextAce._permissions a].
Proof.
  unfold TextAce.__init__.
  destruct (split ":" line) as [|d0 [|d1 [|d2 [|d3 [|d4 l]]]]]; try discriminate.
  intros [= <-]. reflexivity.
Qed.

Lemma TextAce_toString_init (line : string) (a : TextAce.t) :
  TextAce.__init__ line = Return a -> TextAce.toString a = line ++ linesep.
Proof.
  intros H. apply TextAce_init_inv in H.
  pose proof (join_split ":" line) as J. rewrite H in J. simpl in J.
  unfold TextAce.toString. rewrite <- J.
  repeat (rewrite append_assoc; simpl). reflexivity.
Qed.

Lemma TextAce_init_well_formed (line : string) (a : TextAce.t) :
  TextAce.__init__ line = Return a -> Spec.well_formed a = true.
Proof.
  intros H. apply TextAce_init_inv in H.
  pose proof (split_fields_no_sep ":" line) as F. rewrite H in F.
  repeat match goal with
         | F : Forall _ (_ :: _) |- _ => inversion F; clear F; subst
         end.
  unfold Spec.well_formed.
  repeat match goal with E : Spec.has_char _ _ = false |- _ => rewrite E; clear E end.
  reflexivity.
Qed.

Lemma TextAce_init_new_ace_line (a : TextAce.t) :
  Spec.well_formed a = true ->
  TextAce.__init__ (Acl.new_ace_line a) = Return (Spec.inherit_copy a).
Proof.
  unfold Spec.well_formed. rewrite !andb_true_iff, !negb_true_iff.
  intros [[[Ht Hf] Hp] Hm].
  unfold TextAce.__init__, Acl.new_ace_line,
    TextAce.getType, TextAce.getFlags, TextAce.getPrincipal, TextAce.getPermissions.
  change (":fdi" ++ TextAce._flags a ++ ":" ++ TextAce._principal a ++ ":"
            ++ TextAce._permissions a)
    with (String ":" (("fdi" ++ TextAce._flags a)
            ++ String ":" (TextAce._principal a ++ String ":" (TextAce._permissions a)))).
  rewrite (split_app_sep ":" _ _ Ht).
  rewrite (split_app_sep ":"); [|simpl; exact Hf].
  rewrite (split_app_sep ":" _ _ Hp).
  rewrite (split_no_sep ":" _ Hm).
  reflexivity.
Qed.

(* ================================================================= *)
(** ** Acl: the pieces of [convert] *)

Lemma fold_append {A} (f : A -> string) (xs : list A) (acc : string) :
  fold_left (fun result x => result ++ f x) xs acc
  = acc ++ String.concat "" (map f xs).
Proof.
  revert acc. induction xs as [|x xs IH]; intros acc; simpl.
  - now rewrite append_nil_r.
  - rewrite IH, append_assoc. destruct xs as [|y xs]; simpl.
    + now rewrite append_nil_r.
    + reflexivity.
Qed.

(** [String.concat ""] written with a head and a tail. *)
Lemma concat_cons (x : string) (xs : list string) :
  String.concat "" (x :: xs) = x ++ String.concat "" xs.
Proof. destruct xs; simpl; [now rewrite append_nil_r | reflexivity]. Qed.

Lemma concat_app (xs ys : list string) :
  String.concat "" (xs ++ ys) = String.concat "" xs ++ String.concat "" ys.
Proof.
  induction xs as [|x xs IH]; [reflexivity|].
  rewrite <- app_comm_cons, !concat_cons, IH, append_assoc. reflexivity.
Qed.

Lemma Acl_toString_serialize (self : Acl.t) :
  Acl.toString self
  = Spec.serialize (Acl._aces self) ++ Spec.serialize (Acl._added_aces self).
Proof. unfold Acl.toString, Spec.serialize. now rewrite !fold_append. Qed.

Lemma positive_count {A} (p : A -> bool) (xs : list A) :
  (0 <? count p xs)%nat = existsb p xs.
Proof.
  destruct (existsb p xs) eqn:E.
  - apply Nat.ltb_lt. destruct (count p xs) eqn:C; [|lia].
    apply count_zero_iff in C. congruence.
  - apply count_zero_iff in E. now rewrite E.
Qed.

(** The counter of lines 127-132 is the number of covered principals. *)
Lemma covered_count_spec (aces : list TextAce.t) :
  Acl.covered_count aces = Spec.coveredCount aces.
Proof.
  unfold Acl.covered_count, Spec.coveredCount, SPECIAL_PRINCIPALS. simpl.
  rewrite !positive_count.
  change (existsb (Acl.inherits_for ?p) aces) with (Spec.covered aces p).
  destruct (Spec.covered aces "OWNER@"), (Spec.covered aces "GROUP@"),
    (Spec.covered aces "EVERYONE@"); reflexivity.
Qed.

Lemma coveredCount_le (aces : list TextAce.t) :
  (Spec.coveredCount aces <= 3)%nat.
Proof. apply (filter_length_le (Spec.covered aces) SPECIAL_PRINCIPALS). Qed.

Lemma check_rules_ok (principals : list string) aces self :
  Forall (Spec.rules_ok aces) principals ->
  Acl.check_rules principals aces self = (Return tt, self).
Proof.
  induction 1 as [|p ps [Ha Hd] _ IH]; simpl; [reflexivity|].
  apply Nat.ltb_ge in Ha, Hd. rewrite Ha, Hd. exact IH.
Qed.

Lemma check_rules_broken (principals : list string) aces self :
  Exists (Spec.rules_broken aces) principals ->
  exists principal,
    In principal principals /\ Spec.rules_broken aces principal
    /\ Acl.check_rules principals aces self
       = (Raise (RuntimeError (Acl.too_many_rules principal)), self).
Proof.
  induction principals as [|p ps IH]; intros H; [inversion H|].
  simpl.
  destruct ((1 <? Acl.num_allow_aces p aces)%nat
            || (1 <? Acl.num_deny_aces p aces)%nat) eqn:E.
  - exists p. split; [now left|]. split; [|reflexivity].
    apply orb_true_iff in E. unfold Spec.rules_broken.
    rewrite <- !Nat.ltb_lt. exact E.
  - destruct IH as (q & Hin & Hq & Hrun).
    + inversion H as [? ? Hp|]; subst; [|assumption].
      apply orb_false_iff in E as [Ea Ed]. apply Nat.ltb_ge in Ea, Ed.
      destruct Hp; lia.
    + exists q. split; [now right|]. split; assumption.
Qed.

(** Either every principal passes, or the loop stops at a broken one; the
    object is never touched. *)
Lemma check_rules_cases (principals : list string) aces self :
  (Forall (Spec.rules_ok aces) principals
   /\ Acl.check_rules principals aces self = (Return tt, self))
  \/ (exists principal,
        In principal principals /\ Spec.rules_broken aces principal
        /\ Acl.check_rules principals aces self
           = (Raise (RuntimeError (Acl.too_many_rules principal)), self)).
Proof.
  induction principals as [|p ps IH]; simpl.
  - left. split; [constructor | reflexivity].
  - destruct ((1 <? Acl.num_allow_aces p aces)%nat
              || (1 <? Acl.num_deny_aces p aces)%nat) eqn:E.
    + right. exists p. split; [now left|]. split; [|reflexivity].
      apply orb_true_iff in E. unfold Spec.rules_broken.
      rewrite <- !Nat.ltb_lt. exact E.
    + apply orb_false_iff in E as [Ea Ed]. apply Nat.ltb_ge in Ea, Ed.
      destruct IH as [[Hall Hrun]|(q & Hin & Hq & Hrun)].
      * left. split; [constructor; [split|]; assumption | exact Hrun].
      * right. exists q. split; [now right|]. split; assumption.
Qed.

(** The cloning loop on parsed ACEs: one copy per allow ACE of a special
    principal, appended in order. *)
Lemma add_aces_well_formed (aces original added : list TextAce.t) :
  forallb Spec.well_formed aces = true ->
  Acl.add_aces aces (Acl.mk original added)
  = (Return tt,
     Acl.mk original (added ++ map Spec.inherit_copy (filter Spec.clonable aces))).
Proof.
  revert added. induction aces as [|a aces IH]; intros added Hwf.
  - simpl. now rewrite app_nil_r.
  - simpl in Hwf. apply andb_true_iff in Hwf as [Ha Hwf].
    cbn [Acl.add_aces filter]. unfold Acl.bind at 1. fold (Spec.clonable a).
    destruct (Spec.clonable a).
    + unfold Acl.bind, Acl.lift, Acl.append_added.
      rewrite (TextAce_init_new_ace_line a Ha). cbn [Acl._aces Acl._added_aces].
      rewrite (IH _ Hwf). cbn [map]. now rewrite <- app_assoc.
    + unfold Acl.ret. exact (IH _ Hwf).
Qed.

(** Without any Spec.clonable ACE the loop does nothing at all. *)
Lemma add_aces_nothing (aces : list TextAce.t) (self : Acl.t) :
  existsb Spec.clonable aces = false ->
  Acl.add_aces aces self = (Return tt, self).
Proof.
  induction aces as [|a aces IH]; intros H; [reflexivity|].
  simpl in H. apply orb_false_iff in H as [Ha H].
  cbn [Acl.add_aces]. unfold Acl.bind at 1. fold (Spec.clonable a). rewrite Ha.
  unfold Acl.ret. exact (IH H).
Qed.

(** [convert], one guard at a time. *)
Lemma convert_unfold (self : Acl.t) :
  Acl.convert self =
  if existsb TextAce.hasInheritanceFlag (Acl._aces self) then
    if (Spec.coveredCount (Acl._aces self) =? 3)%nat then (Return false, self)
    else if (0 <? Spec.coveredCount (Acl._aces self))%nat
         then (Raise (RuntimeError Acl.not_all_inherited), self)
         else match Acl.check_rules SPECIAL_PRINCIPALS (Acl._aces self) self with
              | (Return _, self') =>
                  match Acl.add_aces (Acl._aces self) self' with
                  | (Return _, self'') => (Return true, self'')
                  | (Raise e, self'') => (Raise e, self'')
                  end
              | (Raise e, self') => (Raise e, self')
              end
  else (Return false, self).
Proof.
  unfold Acl.convert, Acl.bind, Acl.get_aces, Acl.ret, Acl.raise.
  rewrite covered_count_spec.
  destruct (existsb TextAce.hasInheritanceFlag (Acl._aces self)) eqn:E.
  - destruct (count TextAce.hasInheritanceFlag (Acl._aces self) =? 0)%nat eqn:C.
    + apply Nat.eqb_eq, count_zero_iff in C. congruence.
    + change (List.length SPECIAL_PRINCIPALS) with 3%nat.
      destruct (Spec.coveredCount (Acl._aces self) =? 3)%nat; [reflexivity|].
      destruct (0 <? Spec.coveredCount (Acl._aces self))%nat; reflexivity.
  - apply count_zero_iff in E. rewrite E. reflexivity.
Qed.

Lemma add_aces_raises_assertion aces self e self' :
  Acl.add_aces aces self = (Raise e, self') -> e = AssertionError.
Proof.
  revert self. induction aces as [|a aces IH]; intros self; [discriminate|].
  cbn [Acl.add_aces]. unfold Acl.bind at 1.
  destruct (TextAce.isAllowAce a && TextAce.hasSpecialPrincipal a).
  - unfold Acl.bind, Acl.lift, Acl.append_added, TextAce.__init__.
    destruct (split ":" (Acl.new_ace_line a)) as [|d0 [|d1 [|d2 [|d3 [|d4 l]]]]];
      try (intros [= <- _]; reflexivity).
    apply IH.
  - unfold Acl.ret. apply IH.
Qed.

Lemma no_inheritance_no_coverage (aces : list TextAce.t) :
  existsb TextAce.hasInheritanceFlag aces = false -> Spec.coveredCount aces = 0%nat.
Proof.
  intros H. unfold Spec.coveredCount.
  assert (C : forall p, Spec.covered aces p = false).
  { intros p. unfold Spec.covered.
    induction aces as [|a aces IH]; [reflexivity|].
    simpl in H |- *. apply orb_false_iff in H as [Ha H].
    rewrite Ha, (IH H). reflexivity. }
  simpl. rewrite !C. reflexivity.
Qed.

(* ================================================================= *)
(** ** The rule engine *)

Lemma parse_lines_well_formed (lines : list string) (acc aces : list TextAce.t) :
  forallb Spec.well_formed acc = true ->
  Acl.parse_lines lines acc = Return aces ->
  forallb Spec.well_formed aces = true.
Proof.
  revert acc. induction lines as [|line lines IH]; intros acc Hacc H.
  - now injection H as <-.
  - cbn [Acl.parse_lines] in H. destruct line as [|c line]; [exact (IH _ Hacc H)|].
    destruct (Ascii.eqb c "#"); [exact (IH _ Hacc H)|].
    destruct (TextAce.__init__ (String c line)) as [a|e] eqn:E; [|discriminate].
    apply (IH (acc ++ [a])%list); [|exact H].
    rewrite forallb_app, Hacc. cbn.
    now rewrite (TextAce_init_well_formed _ _ E).
Qed.

(** An [Acl] object as built by [Acl.__init__]. *)
Lemma Acl_init_inv (text : string) (self : Acl.t) :
  Acl.__init__ text = Return self ->
  forallb Spec.well_formed (Acl._aces self) = true /\ Acl._added_aces self = [].
Proof.
  unfold Acl.__init__.
  destruct (Acl.parse_lines (split LF text) []) as [aces|e] eqn:E; [|discriminate].
  intros [= <-]. split; [|reflexivity].
  exact (parse_lines_well_formed _ [] aces eq_refl E).
Qed.

(** [convert] when steps 1 to 3 pass, on ACEs without [":"] in a field. *)
Lemma convert_accepted (aces added : list TextAce.t) :
  forallb Spec.well_formed aces = true ->
  existsb TextAce.hasInheritanceFlag aces = true ->
  Spec.coveredCount aces = 0%nat ->
  Forall (Spec.rules_ok aces) SPECIAL_PRINCIPALS ->
  Acl.convert (Acl.mk aces added)
  = (Return true,
     Acl.mk aces (added ++ map Spec.inherit_copy (filter Spec.clonable aces))).
Proof.
  intros Hwf Hinh Hcov Hrules.
  rewrite convert_unfold. cbn [Acl._aces].
  rewrite Hinh, Hcov. cbn [Nat.eqb Nat.ltb Nat.leb].
  rewrite (check_rules_ok _ _ _ Hrules).
  rewrite (add_aces_well_formed _ _ _ Hwf). reflexivity.
Qed.

Example example_parses :
  Acl.__init__ example_text = Return (Acl.mk example_aces []).
Proof. reflexivity. Qed.

(** C1.  On every parsed ACL for which steps 1 to 3 let the conversion
    proceed (some ACE carries an inheritance flag, no special principal is
    covered, every special principal has at most one allow and at most one
    deny rule without inheritance flag), [convert] returns [True] and the
    added list holds exactly one ACE per allow ACE of a special principal,
    in the order of the originals; each copy keeps type, principal and
    permissions, and its flags are ["fdi"] followed by the original
    flags. *)
Theorem convert_clones_special_allow_aces (text : string) (self : Acl.t) :
  Acl.__init__ text = Return self ->
  existsb TextAce.hasInheritanceFlag (Acl._aces self) = true ->
  Spec.coveredCount (Acl._aces self) = 0%nat ->
  Forall (Spec.rules_ok (Acl._aces self)) SPECIAL_PRINCIPALS ->
  Acl.convert self
  = (Return true,
     Acl.mk (Acl._aces self)
            (map Spec.inherit_copy (filter Spec.clonable (Acl._aces self)))).
Proof.
  intros Hparse Hinh Hcov Hrules.
  destruct (Acl_init_inv _ _ Hparse) as [Hwf Hadded].
  destruct self as [aces added]. cbn [Acl._aces Acl._added_aces] in *. subst added.
  exact (convert_accepted aces [] Hwf Hinh Hcov Hrules).
Qed.

(** The five-line example of the module docstring: the three copies
    [A:fdi:OWNER@:rwaDxtnNcy], [A:fdig:GROUP@:rxtncy] and
    [A:fdig:EVERYONE@:rxtncy] are added, in that order, and printed after
    the five originals. *)
Lemma example_converted :
  Acl.convert (Acl.mk example_aces [])
  = (Return true, Acl.mk example_aces example_added)
  /\ Acl.toString (Acl.mk example_aces example_added)
     = example_text ++ "A:fdi:OWNER@:rwaDxtnNcy" ++ linesep
         ++ "A:fdig:GROUP@:rxtncy" ++ linesep
         ++ "A:fdig:EVERYONE@:rxtncy" ++ linesep.
Proof.
  split; [|reflexivity].
  refine (convert_clones_special_allow_aces example_text (Acl.mk example_aces [])
            eq_refl eq_refl eq_refl _).
  repeat constructor.
Defined.

(** C2.  When exactly one or exactly two of the three special principals
    own an ACE with an inheritance flag, [convert] raises the
    [RuntimeError] about incomplete inheritance: it returns neither
    [False] nor [True]. *)
Theorem convert_partial_coverage_raises (aces added : list TextAce.t) :
  Spec.coveredCount aces = 1%nat \/ Spec.coveredCount aces = 2%nat ->
  Acl.convert (Acl.mk aces added)
  = (Raise (RuntimeError Acl.not_all_inherited), Acl.mk aces added).
Proof.
  intros Hcov. rewrite convert_unfold. cbn [Acl._aces].
  destruct (existsb TextAce.hasInheritanceFlag aces) eqn:E.
  - destruct Hcov as [-> | ->]; reflexivity.
  - apply no_inheritance_no_coverage in E. lia.
Qed.

Lemma partial_coverage_witness :
  Acl.convert (Acl.mk [ace "A" "fd" "OWNER@" "rwx"; ace "A" "" "GROUP@" "rx"] [])
  = (Raise (RuntimeError Acl.not_all_inherited),
     Acl.mk [ace "A" "fd" "OWNER@" "rwx"; ace "A" "" "GROUP@" "rx"] []).
Proof.
  apply convert_partial_coverage_raises. left. reflexivity.
Defined.

(** C4, as stated, fails: two allow rules for [OWNER@] and no covered
    special principal, but no inheritance flag anywhere, so step 1 answers
    [False] before the rules are counted. *)
Lemma two_owner_rules_without_inheritance :
  let aces := [ace "A" "" "OWNER@" "rwx"; ace "A" "" "OWNER@" "r"] in
  Spec.coveredCount aces = 0%nat
  /\ In "OWNER@" SPECIAL_PRINCIPALS
  /\ Acl.num_allow_aces "OWNER@" aces = 2%nat
  /\ Acl.convert (Acl.mk aces []) = (Return false, Acl.mk aces []).
Proof. repeat split; try reflexivity. left; reflexivity. Qed.

(** C4, amended.  When some ACE carries an inheritance flag, no special
    principal is covered and some special principal has more than one
    allow rule or more than one deny rule without inheritance flag,
    [convert] raises the [RuntimeError] naming such a principal and leaves
    the ACL as it was. *)
Theorem convert_too_many_rules_raises (aces added : list TextAce.t) :
  existsb TextAce.hasInheritanceFlag aces = true ->
  Spec.coveredCount aces = 0%nat ->
  Exists (Spec.rules_broken aces) SPECIAL_PRINCIPALS ->
  exists principal,
    In principal SPECIAL_PRINCIPALS /\ Spec.rules_broken aces principal
    /\ Acl.convert (Acl.mk aces added)
       = (Raise (RuntimeError (Acl.too_many_rules principal)), Acl.mk aces added).
Proof.
  intros Hinh Hcov Hbroken.
  destruct (check_rules_broken _ _ (Acl.mk aces added) Hbroken)
    as (p & Hin & Hp & Hrun).
  exists p. split; [exact Hin|]. split; [exact Hp|].
  rewrite convert_unfold. cbn [Acl._aces].
  rewrite Hinh, Hcov. cbn [Nat.eqb Nat.ltb Nat.leb].
  rewrite Hrun. reflexivity.
Qed.

Lemma too_many_rules_witness :
  exists principal,
    In principal SPECIAL_PRINCIPALS
    /\ Spec.rules_broken
         [ace "D" "" "GROUP@" "w"; ace "D" "" "GROUP@" "x";
          ace "A" "fdg" "readers" "r"] principal
    /\ Acl.convert
         (Acl.mk [ace "D" "" "GROUP@" "w"; ace "D" "" "GROUP@" "x";
                  ace "A" "fdg" "readers" "r"] [])
       = (Raise (RuntimeError (Acl.too_many_rules principal)),
          Acl.mk [ace "D" "" "GROUP@" "w"; ace "D" "" "GROUP@" "x";
                  ace "A" "fdg" "readers" "r"] []).
Proof.
  apply convert_too_many_rules_raises; [reflexivity | reflexivity |].
  apply Exists_cons_tl, Exists_cons_hd. right. vm_compute. lia.
Defined.

(** C9.  When [convert] raises one of its two [RuntimeError]s on an ACL
    whose added list is empty, the ACL is left exactly as it was: the added
    list is still empty and [toString] prints the original ACEs only.  The
    error is the one about incomplete inheritance or the one about too many
    rules for a special principal. *)
Theorem convert_error_leaves_acl_unchanged (self self' : Acl.t) (msg : string) :
  Acl._added_aces self = [] ->
  Acl.convert self = (Raise (RuntimeError msg), self') ->
  self' = self
  /\ Acl._added_aces self' = []
  /\ Acl.toString self' = Spec.serialize (Acl._aces self)
  /\ (msg = Acl.not_all_inherited
      \/ exists principal,
           In principal SPECIAL_PRINCIPALS /\ msg = Acl.too_many_rules principal).
Proof.
  intros Hadded Hrun.
  assert (H : self' = self
              /\ (msg = Acl.not_all_inherited
                  \/ exists principal,
                       In principal SPECIAL_PRINCIPALS
                       /\ msg = Acl.too_many_rules principal)).
  { rewrite convert_unfold in Hrun.
    destruct (existsb TextAce.hasInheritanceFlag (Acl._aces self)); [|discriminate].
    destruct (Spec.coveredCount (Acl._aces self) =? 3)%nat; [discriminate|].
    destruct (0 <? Spec.coveredCount (Acl._aces self))%nat.
    - injection Hrun as <- <-. split; [reflexivity | now left].
    - destruct (check_rules_cases SPECIAL_PRINCIPALS (Acl._aces self) self)
        as [[_ Hok] | (p & Hin & _ & Hbad)].
      + rewrite Hok in Hrun.
        destruct (Acl.add_aces (Acl._aces self) self) as [[u|e] s] eqn:Eadd;
          [discriminate|].
        apply add_aces_raises_assertion in Eadd. subst e. discriminate.
      + rewrite Hbad in Hrun. injection Hrun as <- <-.
        split; [reflexivity|]. right. exists p. split; [exact Hin | reflexivity]. }
  destruct H as [-> Hmsg].
  repeat split; try assumption.
  rewrite Acl_toString_serialize, Hadded. apply append_nil_r.
Qed.

Lemma error_leaves_acl_unchanged_witness :
  let self := Acl.mk [ace "A" "fd" "OWNER@" "rwx"; ace "A" "" "GROUP@" "rx"] [] in
  self = self
  /\ Acl._added_aces self = []
  /\ Acl.toString self = Spec.serialize (Acl._aces self)
  /\ (Acl.not_all_inherited = Acl.not_all_inherited
      \/ exists principal,
           In principal SPECIAL_PRINCIPALS
           /\ Acl.not_all_inherited = Acl.too_many_rules principal).
Proof.
  exact (convert_error_leaves_acl_unchanged
           (Acl.mk [ace "A" "fd" "OWNER@" "rwx"; ace "A" "" "GROUP@" "rx"] [])
           _ Acl.not_all_inherited eq_refl eq_refl).
Defined.

(* ----------------------------------------------------------------- *)
(** *** Running [convert] a second time *)

Lemma prefix_nil (s : string) : prefix "" s = true.
Proof. destruct s; reflexivity. Qed.

Lemma inherit_copy_inherits (a : TextAce.t) :
  TextAce.hasInheritanceFlag (Spec.inherit_copy a) = true.
Proof.
  unfold TextAce.hasInheritanceFlag, Spec.inherit_copy. cbn.
  rewrite prefix_nil. reflexivity.
Qed.

Lemma convert_true_inv (aces added0 : list TextAce.t) (self' : Acl.t) :
  forallb Spec.well_formed aces = true ->
  Acl.convert (Acl.mk aces added0) = (Return true, self') ->
  existsb TextAce.hasInheritanceFlag aces = true
  /\ Spec.coveredCount aces = 0%nat
  /\ Forall (Spec.rules_ok aces) SPECIAL_PRINCIPALS
  /\ self' = Acl.mk aces (added0 ++ map Spec.inherit_copy (filter Spec.clonable aces)).
Proof.
  intros Hwf Hrun. rewrite convert_unfold in Hrun. cbn [Acl._aces] in Hrun.
  destruct (existsb TextAce.hasInheritanceFlag aces); [|discriminate].
  destruct (Spec.coveredCount aces =? 3)%nat; [discriminate|].
  destruct (0 <? Spec.coveredCount aces)%nat eqn:Hcov; [discriminate|].
  apply Nat.ltb_ge in Hcov.
  destruct (check_rules_cases SPECIAL_PRINCIPALS aces (Acl.mk aces added0))
    as [[Hall Hok] | (p & _ & _ & Hbad)].
  - rewrite Hok, (add_aces_well_formed _ _ _ Hwf) in Hrun.
    injection Hrun as <-. repeat split; [lia | exact Hall].
  - rewrite Hbad in Hrun. discriminate.
Qed.

(** With an allow rule for each of the three special principals, as the
    module docstring requires, a second run finds all of them covered and
    answers [False]. *)
Lemma convert_idempotent_when_complete (aces added : list TextAce.t) :
  forallb Spec.well_formed aces = true ->
  Acl.convert (Acl.mk aces []) = (Return true, Acl.mk aces added) ->
  (forall principal, In principal SPECIAL_PRINCIPALS ->
     exists a, In a aces /\ TextAce.isAllowAce a = true
               /\ TextAce._principal a = principal) ->
  Acl.convert (Acl.mk (aces ++ added) [])
  = (Return false, Acl.mk (aces ++ added) []).
Proof.
  intros Hwf Hrun Hallow.
  apply convert_true_inv in Hrun as (Hinh & _ & _ & Heq); [|exact Hwf].
  injection Heq as ->. cbn [app].
  set (added := map Spec.inherit_copy (filter Spec.clonable aces)).
  assert (Hcov : forall p, In p SPECIAL_PRINCIPALS ->
                           Spec.covered (aces ++ added) p = true).
  { intros p Hp. destruct (Hallow p Hp) as (a & Ha & Hallow_a & Hprin).
    unfold Spec.covered. apply existsb_exists.
    exists (Spec.inherit_copy a). split.
    - apply in_or_app. right. apply in_map, filter_In. split; [exact Ha|].
      unfold Spec.clonable, TextAce.hasSpecialPrincipal.
      rewrite Hallow_a. apply existsb_exists. exists p.
      split; [exact Hp | rewrite Hprin; apply String.eqb_refl].
    - rewrite inherit_copy_inherits. cbn. rewrite Hprin. apply String.eqb_refl. }
  rewrite convert_unfold. cbn [Acl._aces].
  rewrite existsb_app, Hinh. cbn [orb].
  unfold Spec.coveredCount, SPECIAL_PRINCIPALS. cbn [filter].
  rewrite !Hcov by (cbn; tauto). reflexivity.
Qed.

(** C5.  The code accepts ACLs in which a special principal has no allow
    rule.  Here only [OWNER@] has one: the first run adds
    [A:fdi:OWNER@:rwx]; the combined list, read back from its own
    serialization, has one covered special principal out of three and the
    second run raises instead of answering [False]. *)
Lemma convert_twice_raises :
  let aces := [ace "A" "" "OWNER@" "rwx"; ace "A" "fdg" "readers" "r"] in
  let added := [ace "A" "fdi" "OWNER@" "rwx"] in
  Acl.convert (Acl.mk aces []) = (Return true, Acl.mk aces added)
  /\ Acl.__init__ (Acl.toString (Acl.mk aces added))
     = Return (Acl.mk (aces ++ added) [])
  /\ Acl.convert (Acl.mk (aces ++ added) [])
     = (Raise (RuntimeError Acl.not_all_inherited), Acl.mk (aces ++ added) []).
Proof. repeat split. Qed.

(* ================================================================= *)
(** ** Parsing and printing *)

(** C6, as stated, fails: the printed ACE carries the line separator that
    the parsed line did not have. *)
Lemma printed_ace_differs_from_line :
  TextAce.__init__ "A::OWNER@:rwaDxtnNcy" = Return (ace "A" "" "OWNER@" "rwaDxtnNcy")
  /\ TextAce.toString (ace "A" "" "OWNER@" "rwaDxtnNcy") <> "A::OWNER@:rwaDxtnNcy".
Proof. split; [reflexivity | discriminate]. Qed.

(** C6, amended.  For every line accepted by [TextAce.__init__] (exactly
    four fields between colons), printing the parsed ACE gives the line
    back, byte for byte, followed by the line separator. *)
Theorem print_parse_roundtrip (line : string) (a : TextAce.t) :
  TextAce.__init__ line = Return a ->
  TextAce.toString a = line ++ linesep.
Proof.
  intros Hparse. apply TextAce_init_inv in Hparse.
  pose proof (join_split ":" line) as Hjoin.
  rewrite Hparse in Hjoin. cbn [join] in Hjoin.
  unfold TextAce.toString. rewrite <- Hjoin.
  repeat (rewrite append_assoc; simpl). reflexivity.
Qed.

Lemma print_parse_roundtrip_witness :
  TextAce.toString (ace "A" "fdg" "writers" "rwaDxtTnNcCy")
  = "A:fdg:writers:rwaDxtTnNcCy" ++ linesep.
Proof.
  exact (print_parse_roundtrip "A:fdg:writers:rwaDxtTnNcCy" _ eq_refl).
Defined.

Lemma parse_lines_serialize (lines : list string) (acc aces : list TextAce.t) :
  Acl.parse_lines lines acc = Return aces ->
  exists parsed,
    aces = (acc ++ parsed)%list
    /\ map TextAce.toString parsed
       = map Spec.terminated (filter Spec.is_ace_line lines).
Proof.
  revert acc. induction lines as [|line lines IH]; intros acc H.
  - injection H as <-. exists []. now rewrite app_nil_r.
  - cbn [Acl.parse_lines] in H. destruct line as [|c line].
    + exact (IH _ H).
    + cbn [filter Spec.is_ace_line]. destruct (Ascii.eqb c "#"); cbn [negb].
      * exact (IH _ H).
      * destruct (TextAce.__init__ (String c line)) as [a|e] eqn:E; [|discriminate].
        destruct (IH _ H) as (parsed & -> & Hmap).
        exists (a :: parsed). rewrite <- app_assoc. split; [reflexivity|].
        cbn [map]. rewrite Hmap. f_equal. exact (TextAce_toString_init _ _ E).
Qed.

Lemma split_terminated_lines (lines : list string) :
  forallb (fun line => negb (Spec.has_char LF line)) lines = true ->
  split LF (String.concat "" (map Spec.terminated lines)) = (lines ++ [""])%list.
Proof.
  induction lines as [|line lines IH]; intros H; [reflexivity|].
  cbn [forallb] in H. apply andb_true_iff in H as [Hl H].
  apply negb_true_iff in Hl.
  cbn [map]. rewrite concat_cons. unfold Spec.terminated at 1, linesep.
  rewrite append_assoc. cbn [append].
  rewrite (split_app_sep LF _ _ Hl), (IH H). reflexivity.
Qed.

Lemma filter_all {A} (p : A -> bool) (xs : list A) :
  forallb p xs = true -> filter p xs = xs.
Proof.
  induction xs as [|x xs IH]; [reflexivity|].
  cbn. intros H. apply andb_true_iff in H as [-> H]. now rewrite IH.
Qed.

(** C3, as stated, fails: [nfs4_getfacl] starts its listing with a [#]
    comment, which the parser drops; the ACL has no inheritance flag,
    [convert] answers [False], and the serialized text is not the text
    that was parsed. *)
Lemma comment_line_is_not_printed :
  let text := "# file: /d" ++ linesep ++ "A::OWNER@:rwx" ++ linesep in
  let self := Acl.mk [ace "A" "" "OWNER@" "rwx"] [] in
  Acl.__init__ text = Return self
  /\ existsb TextAce.hasInheritanceFlag (Acl._aces self) = false
  /\ Acl.convert self = (Return false, self)
  /\ Acl.toString self <> text.
Proof. repeat split. discriminate. Qed.

(** C3, amended.  When the parsed text has no ACE with an inheritance
    flag, [convert] answers [False] and leaves the ACL as parsed; its
    serialization is the text's ACE lines (blank lines and [#] lines
    dropped), each followed by the line separator.  It is the parsed text,
    byte for byte, when that text is made of ACE lines only, each ended by
    the line separator. *)
Theorem convert_without_inheritance_unchanged (text : string) (self : Acl.t) :
  Acl.__init__ text = Return self ->
  existsb TextAce.hasInheritanceFlag (Acl._aces self) = false ->
  Acl.convert self = (Return false, self)
  /\ Acl.toString self
     = String.concat ""
         (map Spec.terminated (filter Spec.is_ace_line (split LF text)))
  /\ (forall lines,
        text = String.concat "" (map Spec.terminated lines) ->
        forallb Spec.is_ace_line lines = true ->
        forallb (fun line => negb (Spec.has_char LF line)) lines = true ->
        Acl.toString self = text).
Proof.
  intros Hparse Hinh.
  assert (Hprint : Acl.toString self
                   = String.concat ""
                       (map Spec.terminated
                            (filter Spec.is_ace_line (split LF text)))).
  { unfold Acl.__init__ in Hparse.
    destruct (Acl.parse_lines (split LF text) []) as [aces|e] eqn:E; [|discriminate].
    injection Hparse as <-.
    destruct (parse_lines_serialize _ _ _ E) as (parsed & -> & Hmap).
    rewrite Acl_toString_serialize. unfold Spec.serialize.
    cbn [Acl._aces Acl._added_aces app map String.concat].
    now rewrite append_nil_r, Hmap. }
  split; [|split].
  - rewrite convert_unfold, Hinh. reflexivity.
  - exact Hprint.
  - intros lines Htext Hace Hlf. rewrite Hprint, Htext.
    rewrite (split_terminated_lines _ Hlf), filter_app.
    rewrite (filter_all _ _ Hace). cbn. now rewrite app_nil_r.
Qed.

Lemma without_inheritance_witness :
  let text := "# file: /d" ++ linesep ++ "A::OWNER@:rwx" ++ linesep
                ++ "D:g:GROUP@:w" ++ linesep in
  let self := Acl.mk [ace "A" "" "OWNER@" "rwx"; ace "D" "g" "GROUP@" "w"] [] in
  Acl.convert self = (Return false, self)
  /\ Acl.toString self
     = String.concat ""
         (map Spec.terminated (filter Spec.is_ace_line (split LF text)))
  /\ (forall lines,
        text = String.concat "" (map Spec.terminated lines) ->
        forallb Spec.is_ace_line lines = true ->
        forallb (fun line => negb (Spec.has_char LF line)) lines = true ->
        Acl.toString self = text).
Proof.
  exact (convert_without_inheritance_unchanged
           ("# file: /d" ++ linesep ++ "A::OWNER@:rwx" ++ linesep
              ++ "D:g:GROUP@:w" ++ linesep)
           (Acl.mk [ace "A" "" "OWNER@" "rwx"; ace "D" "g" "GROUP@" "w"] [])
           eq_refl eq_refl).
Defined.

(* ================================================================= *)
(** ** The tree-walk callback *)

Section CallbackFacts.

Import AclConverter.

Variable strip : string -> string.
Variable world : World.
Variable options : Options.

Local Abbreviation _processDirectory := (AclConverter._processDirectory strip world options).
Local Abbreviation processEntry := (AclConverter.processEntry strip world options).

(** On a directory that is not a link, [processEntry] answers [True] when
    [_processDirectory] returns, and reports and answers [False] when it
    raises. *)
Lemma processEntry_returns (path : string) (tr : list event) :
  islink world path = false -> isdir world path = true ->
  _processDirectory path = (Return tt, tr) ->
  processEntry path = (Return true, tr).
Proof.
  intros Hl Hd Hrun. unfold AclConverter.processEntry.
  rewrite Hl, Hd. cbn [negb andb]. unfold bind. rewrite Hrun.
  cbn. now rewrite app_nil_r.
Qed.

Lemma processEntry_raises (path : string) (e : exn) (tr : list event) :
  islink world path = false -> isdir world path = true ->
  _processDirectory path = (Raise e, tr) ->
  processEntry path
  = (Return false, (tr ++ [failure_report path (str_exn e)])%list).
Proof.
  intros Hl Hd Hrun. unfold AclConverter.processEntry.
  rewrite Hl, Hd. cbn [negb andb]. unfold bind at 1. rewrite Hrun.
  reflexivity.
Qed.

(** [_processDirectory] once the listing has been fetched and parsed. *)
Lemma processDirectory_fetched (path text : string) (cp : CompletedProcess)
      (acl : Acl.t) :
  subprocess_run world false (getfacl_command path) = Return cp ->
  returncode cp = 0%Z ->
  stdout_decode cp = Return text ->
  Acl.__init__ text = Return acl ->
  _processDirectory path
  = match Acl.convert acl with
    | (Raise e, _) => (Raise e, [Ran false (getfacl_command path)])
    | (Return false, _) => (Return tt, [Ran false (getfacl_command path)])
    | (Return true, acl') =>
        if dry_run options
        then (Return tt, [Ran false (getfacl_command path);
                          Stdout (path ++ linesep ++ Acl.toString acl')])
        else
          let command := setfacl_command (Acl.toString acl') path in
          match subprocess_run world true command with
          | Raise e => (Raise e, [Ran false (getfacl_command path);
                                  Ran true command])
          | Return set_out =>
              if (returncode set_out =? 0)%Z
              then (Return tt, [Ran false (getfacl_command path);
                                Ran true command])
              else match stderr_decode set_out with
                   | Raise e => (Raise e, [Ran false (getfacl_command path);
                                           Ran true command])
                   | Return err =>
                       (Return tt,
                        [Ran false (getfacl_command path); Ran true command;
                         failure_report path
                           ("Failed to run nfs4_setfacl: " ++ strip err)])
                   end
          end
    end.
Proof.
  intros Hrun Hrc Hout Hparse.
  unfold AclConverter._processDirectory, run, bind, emit, lift.
  rewrite Hrun, Hrc, Hout, Hparse. cbn [Z.eqb negb].
  destruct (Acl.convert acl) as [[[|]|e] acl']; cbn; try reflexivity.
  destruct (dry_run options); cbn; [reflexivity|].
  destruct (subprocess_run world true _) as [set_out|e]; cbn; [|reflexivity].
  destruct (returncode set_out =? 0)%Z; cbn; [reflexivity|].
  destruct (stderr_decode set_out); reflexivity.
Qed.

End CallbackFacts.

(** C7, as stated, fails: [/srv/data] is a directory and no link, its ACL
    covers one special principal only, [convert] raises, the exception
    leaves [_processDirectory], is reported by the handler, and
    [processEntry] answers [False]. *)
Lemma rule_violation_stops_expansion :
  let world := one_directory (completed 0 ("A:fd:OWNER@:rwx" ++ linesep) "") in
  AclConverter.islink world "/srv/data" = false
  /\ AclConverter.isdir world "/srv/data" = true
  /\ AclConverter.processEntry strip_ascii world write_back "/srv/data"
     = (Return false,
        [AclConverter.Ran false "nfs4_getfacl /srv/data";
         AclConverter.Stderr
           ("Failed to process /srv/data: " ++ Acl.not_all_inherited)]).
Proof. repeat split. Qed.

(** C7, amended.  On a directory that is not a symbolic link,
    [processEntry] answers [True] whenever [_processDirectory] returns
    without raising, and otherwise reports the exception and answers
    [False]; in particular, when the rule engine raises, the error is
    reported with the path and the message and [processEntry] answers
    [False]. *)
Theorem processEntry_on_directory
        (strip : string -> string) (world : AclConverter.World)
        (options : AclConverter.Options) (path : string) :
  AclConverter.islink world path = false ->
  AclConverter.isdir world path = true ->
  (forall tr,
     AclConverter._processDirectory strip world options path = (Return tt, tr) ->
     AclConverter.processEntry strip world options path = (Return true, tr))
  /\ (forall e tr,
        AclConverter._processDirectory strip world options path = (Raise e, tr) ->
        AclConverter.processEntry strip world options path
        = (Return false,
           (tr ++ [AclConverter.failure_report path (str_exn e)])%list))
  /\ (forall cp text acl e acl',
        AclConverter.subprocess_run world false
          (AclConverter.getfacl_command path) = Return cp ->
        AclConverter.returncode cp = 0%Z ->
        AclConverter.stdout_decode cp = Return text ->
        Acl.__init__ text = Return acl ->
        Acl.convert acl = (Raise e, acl') ->
        AclConverter.processEntry strip world options path
        = (Return false,
           [AclConverter.Ran false (AclConverter.getfacl_command path);
            AclConverter.failure_report path (str_exn e)])).
Proof.
  intros Hl Hd. split; [|split].
  - intros tr. apply processEntry_returns; assumption.
  - intros e tr. apply processEntry_raises; assumption.
  - intros cp text acl e acl' Hrun Hrc Hout Hparse Hconv.
    rewrite (processEntry_raises strip world options path e
               [AclConverter.Ran false (AclConverter.getfacl_command path)] Hl Hd).
    + reflexivity.
    + rewrite (processDirectory_fetched strip world options path text cp acl
                 Hrun Hrc Hout Hparse), Hconv. reflexivity.
Qed.

Lemma processEntry_on_directory_witness :
  AclConverter.processEntry strip_ascii
    (one_directory (completed 0 ("A:fd:OWNER@:rwx" ++ linesep) "")) dry "/srv/data"
  = (Return false,
     [AclConverter.Ran false (AclConverter.getfacl_command "/srv/data");
      AclConverter.failure_report "/srv/data"
        (str_exn (RuntimeError Acl.not_all_inherited))]).
Proof.
  exact (proj2 (proj2 (processEntry_on_directory strip_ascii
                         (one_directory (completed 0 ("A:fd:OWNER@:rwx" ++ linesep) ""))
                         dry "/srv/data" eq_refl eq_refl))
               _ _ _ _ _ eq_refl eq_refl eq_refl eq_refl eq_refl).
Defined.

(** C8, as stated, fails: [nfs4_getfacl] exits with status 1 on the
    directory [/srv/data]; the failure is reported and [processEntry]
    answers [True]. *)
Lemma failed_fetch_still_expands :
  let listing := completed 1 "" ("Operation not supported" ++ linesep) in
  let world := one_directory listing in
  AclConverter.islink world "/srv/data" = false
  /\ AclConverter.isdir world "/srv/data" = true
  /\ AclConverter.subprocess_run world false "nfs4_getfacl /srv/data"
     = Return listing
  /\ AclConverter.returncode listing <> 0%Z
  /\ AclConverter.processEntry strip_ascii world write_back "/srv/data"
     = (Return true,
        [AclConverter.Ran false "nfs4_getfacl /srv/data";
         AclConverter.Stderr
           "Failed to process /srv/data: Failed to run nfs4_getfacl: Operation not supported"]).
Proof. repeat split. discriminate. Qed.

(** C8, amended.  On a directory that is not a symbolic link, when
    [nfs4_getfacl] completes with a non-zero return code and its error
    output can be decoded, [processEntry] reports the error with the path
    and the stripped error output of the command, and answers [True]: the
    directory is still expanded.  When the error output cannot be decoded,
    the decoding exception is what is reported, and the answer is
    [False]. *)
Theorem processEntry_fetch_failure
        (strip : string -> string) (world : AclConverter.World)
        (options : AclConverter.Options) (path : string)
        (cp : AclConverter.CompletedProcess) :
  AclConverter.islink world path = false ->
  AclConverter.isdir world path = true ->
  AclConverter.subprocess_run world false ("nfs4_getfacl " ++ path) = Return cp ->
  AclConverter.returncode cp <> 0%Z ->
  AclConverter.processEntry strip world options path
  = match AclConverter.stderr_decode cp with
    | Return err =>
        (Return true,
         [AclConverter.Ran false ("nfs4_getfacl " ++ path);
          AclConverter.Stderr
            ("Failed to process " ++ path ++ ": "
               ++ "Failed to run nfs4_getfacl: " ++ strip err)])
    | Raise e =>
        (Return false,
         [AclConverter.Ran false ("nfs4_getfacl " ++ path);
          AclConverter.Stderr ("Failed to process " ++ path ++ ": " ++ str_exn e)])
    end.
Proof.
  intros Hl Hd Hrun Hrc. apply Z.eqb_neq in Hrc.
  destruct (AclConverter.stderr_decode cp) as [err|e] eqn:Herr.
  - apply processEntry_returns; [assumption | assumption |].
    unfold AclConverter._processDirectory, AclConverter.run, AclConverter.bind,
      AclConverter.emit, AclConverter.lift, AclConverter.getfacl_command.
    rewrite Hrun, Hrc, Herr. reflexivity.
  - rewrite (processEntry_raises strip world options path e
               [AclConverter.Ran false ("nfs4_getfacl " ++ path)] Hl Hd);
      [reflexivity|].
    unfold AclConverter._processDirectory, AclConverter.run, AclConverter.bind,
      AclConverter.emit, AclConverter.lift, AclConverter.getfacl_command.
    rewrite Hrun, Hrc, Herr. reflexivity.
Qed.

Lemma processEntry_fetch_failure_witness :
  AclConverter.processEntry strip_ascii
    (one_directory (completed 1 "" ("Operation not supported" ++ linesep)))
    write_back "/srv/data"
  = (Return true,
     [AclConverter.Ran false "nfs4_getfacl /srv/data";
      AclConverter.Stderr
        "Failed to process /srv/data: Failed to run nfs4_getfacl: Operation not supported"]).
Proof.
  refine (processEntry_fetch_failure strip_ascii
            (one_directory (completed 1 "" ("Operation not supported" ++ linesep)))
            write_back "/srv/data"
            (completed 1 "" ("Operation not supported" ++ linesep))
            eq_refl eq_refl eq_refl _).
  discriminate.
Defined.

(** An error stream that is not valid UTF-8 turns a failed fetch into an
    unexpanded directory. *)
Example undecodable_fetch_failure :
  AclConverter.processEntry strip_ascii
    (one_directory
       {| AclConverter.returncode := 1;
          AclConverter.stdout_decode := Return "";
          AclConverter.stderr_decode :=
            Raise (OtherError "'utf-8' codec can't decode byte 0xff") |})
    write_back "/srv/data"
  = (Return false,
     [AclConverter.Ran false "nfs4_getfacl /srv/data";
      AclConverter.Stderr
        "Failed to process /srv/data: 'utf-8' codec can't decode byte 0xff"]).
Proof. reflexivity. Qed.

(** C10.  When the parsed ACL has an ACE with an inheritance flag, no
    covered special principal, at most one deny rule per special principal
    and no allow ACE of a special principal, [convert] answers [True]
    without adding anything: the ACL is as parsed and its serialization is
    that of the original list, namely the ACE lines of the listing, each
    with its line separator.  The directory is nevertheless handled as
    converted: in a dry run the path and this text are printed; otherwise
    the shell is given [echo], this text between double quotes, and the
    pipe into [nfs4_setfacl -S -] for the path. *)
Theorem convert_without_clonable_adds_nothing
        (strip : string -> string) (world : AclConverter.World)
        (path text : string)
        (cp : AclConverter.CompletedProcess) (self : Acl.t) :
  AclConverter.subprocess_run world false ("nfs4_getfacl " ++ path) = Return cp ->
  AclConverter.returncode cp = 0%Z ->
  AclConverter.stdout_decode cp = Return text ->
  Acl.__init__ text = Return self ->
  existsb TextAce.hasInheritanceFlag (Acl._aces self) = true ->
  Spec.coveredCount (Acl._aces self) = 0%nat ->
  Forall (Spec.rules_ok (Acl._aces self)) SPECIAL_PRINCIPALS ->
  existsb Spec.clonable (Acl._aces self) = false ->
  let printed :=
    String.concat ""
      (map Spec.terminated (filter Spec.is_ace_line (split LF text))) in
  let command :=
    "echo " ++ String "034" (printed ++ String "034"
                               (" | nfs4_setfacl -S - " ++ path)) in
  Acl.convert self = (Return true, self)
  /\ Acl._added_aces self = []
  /\ Acl.toString self = Spec.serialize (Acl._aces self)
  /\ Acl.toString self = printed
  /\ (forall options,
        AclConverter.dry_run options = true ->
        AclConverter._processDirectory strip world options path
        = (Return tt,
           [AclConverter.Ran false ("nfs4_getfacl " ++ path);
            AclConverter.Stdout (path ++ linesep ++ printed)]))
  /\ (forall options,
        AclConverter.dry_run options = false ->
        AclConverter._processDirectory strip world options path
        = match AclConverter.subprocess_run world true command with
          | Raise e =>
              (Raise e,
               [AclConverter.Ran false ("nfs4_getfacl " ++ path);
                AclConverter.Ran true command])
          | Return set_out =>
              if (AclConverter.returncode set_out =? 0)%Z
              then (Return tt,
                    [AclConverter.Ran false ("nfs4_getfacl " ++ path);
                     AclConverter.Ran true command])
              else
                match AclConverter.stderr_decode set_out with
                | Raise e =>
                    (Raise e,
                     [AclConverter.Ran false ("nfs4_getfacl " ++ path);
                      AclConverter.Ran true command])
                | Return err =>
                    (Return tt,
                     [AclConverter.Ran false ("nfs4_getfacl " ++ path);
                      AclConverter.Ran true command;
                      AclConverter.Stderr
                        ("Failed to process " ++ path ++ ": "
                           ++ "Failed to run nfs4_setfacl: " ++ strip err)])
                end
          end).
Proof.
  intros Hrun Hrc Hout Hparse Hinh Hcov Hrules Hnone printed command.
  destruct (Acl_init_inv _ _ Hparse) as [_ Hadded].
  assert (Hconv : Acl.convert self = (Return true, self)).
  { rewrite convert_unfold, Hinh, Hcov. cbn [Nat.eqb Nat.ltb Nat.leb].
    rewrite (check_rules_ok _ _ _ Hrules), (add_aces_nothing _ _ Hnone).
    reflexivity. }
  assert (Hprint : Acl.toString self = printed).
  { unfold Acl.__init__ in Hparse.
    destruct (Acl.parse_lines (split LF text) []) as [aces|e] eqn:E; [|discriminate].
    injection Hparse as <-.
    destruct (parse_lines_serialize _ _ _ E) as (parsed & -> & Hmap).
    rewrite Acl_toString_serialize. unfold Spec.serialize.
    cbn [Acl._aces Acl._added_aces app map String.concat].
    now rewrite append_nil_r, Hmap. }
  assert (Hdir : forall options,
             AclConverter._processDirectory strip world options path
             = _) by
    (intros options;
     exact (processDirectory_fetched strip world options path text cp self
              Hrun Hrc Hout Hparse)).
  rewrite Hconv in Hdir.
  assert (Hcmd : AclConverter.setfacl_command (Acl.toString self) path = command).
  { rewrite Hprint. unfold AclConverter.setfacl_command, AclConverter.dquote, command.
    cbn [append]. reflexivity. }
  split; [exact Hconv|]. split; [exact Hadded|].
  split; [rewrite Acl_toString_serialize, Hadded; apply append_nil_r|].
  split; [exact Hprint|]. split.
  - intros options Hdry. rewrite Hdir, Hdry, Hprint. reflexivity.
  - intros options Hdry. rewrite Hdir, Hdry. cbv zeta. rewrite Hcmd.
    reflexivity.
Qed.

Lemma without_clonable_witness :
  let self := Acl.mk [ace "D" "" "EVERYONE@" "w"; ace "A" "fdg" "readers" "rx"] [] in
  let world :=
    one_directory
      (completed 0 ("# file: /srv/data" ++ linesep ++ "D::EVERYONE@:w" ++ linesep
                      ++ "A:fdg:readers:rx" ++ linesep) "") in
  let printed := "D::EVERYONE@:w" ++ linesep ++ "A:fdg:readers:rx" ++ linesep in
  Acl.convert self = (Return true, self)
  /\ Acl.toString self = printed
  /\ AclConverter._processDirectory strip_ascii world dry "/srv/data"
     = (Return tt,
        [AclConverter.Ran false "nfs4_getfacl /srv/data";
         AclConverter.Stdout ("/srv/data" ++ linesep ++ printed)])
  /\ AclConverter._processDirectory strip_ascii world write_back "/srv/data"
     = (Return tt,
        [AclConverter.Ran false "nfs4_getfacl /srv/data";
         AclConverter.Ran true
           ("echo " ++ String "034" (printed ++ String "034"
                                       " | nfs4_setfacl -S - /srv/data"))]).
Proof.
  exact (let H :=
           convert_without_clonable_adds_nothing strip_ascii
             (one_directory
                (completed 0 ("# file: /srv/data" ++ linesep ++ "D::EVERYONE@:w"
                                ++ linesep ++ "A:fdg:readers:rx" ++ linesep) ""))
             "/srv/data"
             ("# file: /srv/data" ++ linesep ++ "D::EVERYONE@:w" ++ linesep
                ++ "A:fdg:readers:rx" ++ linesep)
             (completed 0 ("# file: /srv/data" ++ linesep ++ "D::EVERYONE@:w"
                             ++ linesep ++ "A:fdg:readers:rx" ++ linesep) "")
             (Acl.mk [ace "D" "" "EVERYONE@" "w"; ace "A" "fdg" "readers" "rx"] [])
             eq_refl eq_refl eq_refl eq_refl eq_refl eq_refl
             ltac:(repeat constructor) eq_refl in
         conj (proj1 H)
           (conj (proj1 (proj2 (proj2 (proj2 H))))
              (conj (proj1 (proj2 (proj2 (proj2 (proj2 H)))) dry eq_refl)
                    (proj2 (proj2 (proj2 (proj2 (proj2 H)))) write_back eq_refl)))).
Defined.

(* ================================================================= *)
(** ** More on parsing: which lines are ACEs *)

Lemma length_split (sep : ascii) (s : string) :
  List.length (split sep s) = S (Wire.count_char sep s).
Proof.
  induction s as [|c s IH]; [reflexivity|].
  cbn [split Wire.count_char]. destruct (Ascii.eqb c sep).
  - cbn. now rewrite IH.
  - destruct (split sep s) as [|f fs]; [discriminate IH | exact IH].
Qed.

Lemma has_char_app (c : ascii) (a b : string) :
  Spec.has_char c (a ++ b) = Spec.has_char c a || Spec.has_char c b.
Proof.
  induction a as [|x a IH]; [reflexivity|].
  cbn. now rewrite IH, orb_assoc.
Qed.

(** Fields are cut out of the string: a character absent from the string
    is absent from every field. *)
Lemma split_fields_without (sep c : ascii) (s : string) :
  Spec.has_char c s = false ->
  Forall (fun field => Spec.has_char c field = false) (split sep s).
Proof.
  induction s as [|x s IH]; intros H.
  - repeat constructor.
  - cbn in H. apply orb_false_iff in H as [Hx Hs]. specialize (IH Hs).
    cbn [split]. destruct (Ascii.eqb x sep).
    + constructor; [reflexivity | exact IH].
    + destruct (split sep s) as [|f fs].
      * repeat constructor. cbn. now rewrite Hx.
      * inversion IH; subst. constructor; [cbn; now rewrite Hx | assumption].
Qed.

Lemma TextAce_init_line_of (a : TextAce.t) :
  Spec.well_formed a = true -> TextAce.__init__ (Wire.line_of a) = Return a.
Proof.
  unfold Spec.well_formed. rewrite !andb_true_iff, !negb_true_iff.
  intros [[[Ht Hf] Hp] Hm].
  unfold TextAce.__init__, Wire.line_of.
  change (":" ++ TextAce._flags a ++ ":" ++ TextAce._principal a ++ ":"
            ++ TextAce._permissions a)
    with (String ":" (TextAce._flags a
            ++ String ":" (TextAce._principal a ++ String ":" (TextAce._permissions a)))).
  rewrite (split_app_sep ":" _ _ Ht), (split_app_sep ":" _ _ Hf),
    (split_app_sep ":" _ _ Hp), (split_no_sep ":" _ Hm).
  now destruct a.
Qed.

Lemma TextAce_line_of_init (line : string) (a : TextAce.t) :
  TextAce.__init__ line = Return a -> line = Wire.line_of a.
Proof.
  intros H. apply TextAce_init_inv in H.
  pose proof (join_split ":" line) as J. rewrite H in J. now rewrite <- J.
Qed.

(** X1.  [TextAce.__init__] and the printed fields are inverse to each other:
    a line parses to an ACE exactly when it is that ACE's four fields,
    free of colons, joined by colons. *)
Theorem TextAce_init_iff_line (line : string) (a : TextAce.t) :
  TextAce.__init__ line = Return a
  <-> Spec.well_formed a = true /\ line = Wire.line_of a.
Proof.
  split.
  - intros H. split; [exact (TextAce_init_well_formed _ _ H)|].
    exact (TextAce_line_of_init _ _ H).
  - intros [Hwf ->]. exact (TextAce_init_line_of a Hwf).
Qed.

Lemma TextAce_init_count (line : string) :
  match TextAce.__init__ line with
  | Return _ => Wire.count_char ":" line = 3%nat
  | Raise e => e = AssertionError /\ Wire.count_char ":" line <> 3%nat
  end.
Proof.
  pose proof (length_split ":" line) as L. unfold TextAce.__init__.
  destruct (split ":" line) as [|d0 [|d1 [|d2 [|d3 [|d4 l]]]]];
    cbn in L; try (split; [reflexivity | lia]).
  lia.
Qed.

(** X2.  A line is accepted exactly when it holds three colons; any other line
    fails the assertion, and nothing else can go wrong. *)
Theorem TextAce_init_three_colons (line : string) :
  ((exists a, TextAce.__init__ line = Return a)
   <-> Wire.count_char ":" line = 3%nat)
  /\ (TextAce.__init__ line = Raise AssertionError
      <-> Wire.count_char ":" line <> 3%nat).
Proof.
  pose proof (TextAce_init_count line) as H.
  destruct (TextAce.__init__ line) as [a|e].
  - split; split; intros H'.
    + exact H.
    + now exists a.
    + discriminate H'.
    + contradiction.
  - destruct H as [-> H]. split; split; intros H'.
    + destruct H' as [a Ha]. discriminate Ha.
    + contradiction.
    + exact H.
    + reflexivity.
Qed.

Lemma str_in_char (c : ascii) (s : string) :
  str_in (String c EmptyString) s = Spec.has_char c s.
Proof.
  induction s as [|x s IH]; [reflexivity|].
  cbn [str_in prefix Spec.has_char].
  destruct (ascii_dec c x) as [->|Hne].
  - now rewrite prefix_nil, Ascii.eqb_refl.
  - rewrite IH. destruct (Ascii.eqb_spec x c) as [->|_]; [contradiction | reflexivity].
Qed.

(** X3.  [hasInheritanceFlag] looks for the characters [i], [f] and [d] anywhere
    in the flags; order and other flag characters do not matter. *)
Theorem hasInheritanceFlag_chars (a : TextAce.t) :
  TextAce.hasInheritanceFlag a
  = Spec.has_char "i" (TextAce._flags a)
    || Spec.has_char "f" (TextAce._flags a)
    || Spec.has_char "d" (TextAce._flags a).
Proof.
  unfold TextAce.hasInheritanceFlag. cbn [existsb].
  rewrite !str_in_char, orb_false_r, orb_assoc. reflexivity.
Qed.

Lemma parse_lines_returns (lines : list string) (acc aces : list TextAce.t) :
  Acl.parse_lines lines acc = Return aces ->
  exists parsed,
    aces = (acc ++ parsed)%list
    /\ map Wire.line_of parsed = filter Spec.is_ace_line lines
    /\ forallb Spec.well_formed parsed = true.
Proof.
  revert acc. induction lines as [|line lines IH]; intros acc H.
  - injection H as <-. exists []. now rewrite app_nil_r.
  - cbn [Acl.parse_lines] in H. destruct line as [|c line]; [exact (IH _ H)|].
    cbn [filter Spec.is_ace_line]. destruct (Ascii.eqb c "#"); cbn [negb].
    + exact (IH _ H).
    + destruct (TextAce.__init__ (String c line)) as [a|e] eqn:E; [|discriminate].
      destruct (IH _ H) as (parsed & -> & Hmap & Hwf).
      exists (a :: parsed). rewrite <- app_assoc. split; [reflexivity|].
      cbn [map forallb]. rewrite Hmap, Hwf, (TextAce_init_well_formed _ _ E).
      rewrite <- (TextAce_line_of_init _ _ E). now split.
Qed.

Lemma parse_lines_raises (lines : list string) (acc : list TextAce.t) (e : exn) :
  Acl.parse_lines lines acc = Raise e ->
  e = AssertionError
  /\ exists line, In line (filter Spec.is_ace_line lines)
                  /\ Wire.count_char ":" line <> 3%nat.
Proof.
  revert acc. induction lines as [|line lines IH]; intros acc H; [discriminate|].
  cbn [Acl.parse_lines] in H. destruct line as [|c line]; [exact (IH _ H)|].
  cbn [filter Spec.is_ace_line]. destruct (Ascii.eqb c "#"); cbn [negb].
  - exact (IH _ H).
  - pose proof (TextAce_init_count (String c line)) as T.
    destruct (TextAce.__init__ (String c line)) as [a|e'].
    + destruct (IH _ H) as (-> & l & Hin & Hl).
      split; [reflexivity|]. exists l. split; [now right | exact Hl].
    + injection H as <-. destruct T as [-> T].
      split; [reflexivity|]. exists (String c line). split; [now left | exact T].
Qed.

Lemma Acl_init_returns (text : string) (self : Acl.t) :
  Acl.__init__ text = Return self ->
  map Wire.line_of (Acl._aces self) = filter Spec.is_ace_line (split LF text)
  /\ Acl._added_aces self = []
  /\ forallb Wire.listable (Acl._aces self) = true.
Proof.
  unfold Acl.__init__.
  destruct (Acl.parse_lines (split LF text) []) as [aces|e] eqn:E; [|discriminate].
  intros [= <-].
  destruct (parse_lines_returns _ _ _ E) as (parsed & -> & Hmap & Hwf).
  cbn [app Acl._aces Acl._added_aces]. split; [exact Hmap|]. split; [reflexivity|].
  apply forallb_forall. intros a Ha.
  assert (Hin : In (Wire.line_of a) (filter Spec.is_ace_line (split LF text))).
  { rewrite <- Hmap. now apply in_map. }
  apply filter_In in Hin as [Hsplit Hace].
  pose proof (split_fields_no_sep LF text) as Hlf.
  rewrite Forall_forall in Hlf. specialize (Hlf _ Hsplit).
  unfold Wire.listable. rewrite Hace, Hlf.
  rewrite forallb_forall in Hwf. now rewrite (Hwf _ Ha).
Qed.

(** X4.  [Acl.__init__]: the ACEs are the lines of the text that are neither
    blank nor comments, one ACE per line and in order; the added list is
    empty; no field holds a colon or a line separator.  The only failure
    is the assertion, on an ACE line without exactly three colons. *)
Theorem Acl_init_lines (text : string) :
  match Acl.__init__ text with
  | Return self =>
      map Wire.line_of (Acl._aces self)
      = filter Spec.is_ace_line (split LF text)
      /\ Acl._added_aces self = []
      /\ forallb Wire.listable (Acl._aces self) = true
  | Raise e =>
      e = AssertionError
      /\ exists line, In line (filter Spec.is_ace_line (split LF text))
                      /\ Wire.count_char ":" line <> 3%nat
  end.
Proof.
  destruct (Acl.__init__ text) as [self|e] eqn:E.
  - exact (Acl_init_returns _ _ E).
  - unfold Acl.__init__ in E.
    destruct (Acl.parse_lines (split LF text) []) as [aces|e'] eqn:P; [discriminate|].
    injection E as <-. exact (parse_lines_raises _ _ _ P).
Qed.

(* ----------------------------------------------------------------- *)
(** *** Reading back what [toString] printed *)

Lemma listable_inv (a : TextAce.t) :
  Wire.listable a = true ->
  Spec.well_formed a = true
  /\ Spec.has_char LF (Wire.line_of a) = false
  /\ Spec.is_ace_line (Wire.line_of a) = true.
Proof.
  unfold Wire.listable. rewrite !andb_true_iff, negb_true_iff. tauto.
Qed.

Lemma TextAce_toString_line_of (a : TextAce.t) :
  TextAce.toString a = Spec.terminated (Wire.line_of a).
Proof.
  unfold TextAce.toString, Spec.terminated, Wire.line_of.
  repeat (rewrite append_assoc; simpl). reflexivity.
Qed.

Lemma parse_lines_line_of (aces acc : list TextAce.t) :
  forallb Wire.listable aces = true ->
  Acl.parse_lines (map Wire.line_of aces ++ [""]) acc = Return (acc ++ aces)%list.
Proof.
  revert acc. induction aces as [|a aces IH]; intros acc H.
  - cbn. now rewrite app_nil_r.
  - cbn [forallb] in H. apply andb_true_iff in H as [Ha H].
    apply listable_inv in Ha as (Hwf & _ & Hline).
    cbn [map app Acl.parse_lines].
    destruct (Wire.line_of a) as [|c rest] eqn:E; [discriminate|].
    cbn in Hline. apply negb_true_iff in Hline. rewrite Hline.
    rewrite <- E, (TextAce_init_line_of a Hwf), (IH _ H), <- app_assoc.
    reflexivity.
Qed.

Lemma Acl_init_serialize (aces : list TextAce.t) :
  forallb Wire.listable aces = true ->
  Acl.__init__ (Spec.serialize aces) = Return (Acl.mk aces []).
Proof.
  intros H. unfold Acl.__init__, Spec.serialize.
  replace (map TextAce.toString aces)
    with (map Spec.terminated (map Wire.line_of aces)).
  - rewrite split_terminated_lines.
    + now rewrite (parse_lines_line_of aces [] H).
    + rewrite forallb_forall in *. intros line Hin.
      apply in_map_iff in Hin as (a & <- & Ha).
      destruct (listable_inv a (H a Ha)) as (_ & -> & _). reflexivity.
  - rewrite map_map. apply map_ext. intros a.
    symmetry. apply TextAce_toString_line_of.
Qed.

Lemma serialize_app (xs ys : list TextAce.t) :
  Spec.serialize (xs ++ ys) = Spec.serialize xs ++ Spec.serialize ys.
Proof. unfold Spec.serialize. now rewrite map_app, concat_app. Qed.

Lemma has_char_line (t f p m : string) :
  Spec.has_char LF (t ++ ":" ++ f ++ ":" ++ p ++ ":" ++ m)
  = Spec.has_char LF t || Spec.has_char LF f || Spec.has_char LF p
    || Spec.has_char LF m.
Proof.
  repeat first [rewrite has_char_app | progress cbn [append Spec.has_char]].
  change (Ascii.eqb ":" LF) with false. cbn [orb].
  now rewrite !orb_assoc.
Qed.

Lemma is_ace_line_type (t rest rest' : string) :
  Spec.is_ace_line (t ++ ":" ++ rest) = true ->
  Spec.is_ace_line (t ++ ":" ++ rest') = true.
Proof. destruct t; [reflexivity | exact (fun H => H)]. Qed.

Lemma inherit_copy_listable (a : TextAce.t) :
  Wire.listable a = true -> Wire.listable (Spec.inherit_copy a) = true.
Proof.
  intros H. apply listable_inv in H as (Hwf & Hlf & Hline).
  unfold Wire.listable, Spec.well_formed, Wire.line_of, Spec.inherit_copy in *.
  cbn [TextAce._type TextAce._flags TextAce._principal TextAce._permissions] in *.
  rewrite !andb_true_iff, !negb_true_iff in *.
  destruct Hwf as [[[Ht Hf] Hp] Hm].
  rewrite has_char_line in *.
  apply orb_false_iff in Hlf as [Hlf Hl4].
  apply orb_false_iff in Hlf as [Hlf Hl3].
  apply orb_false_iff in Hlf as [Hl1 Hl2].
  rewrite (is_ace_line_type _ _ _ Hline).
  cbn. rewrite Ht, Hf, Hp, Hm, Hl1, Hl2, Hl3, Hl4. repeat split.
Qed.

(* ================================================================= *)
(** ** More on the rule engine *)

(** The four ways [convert] can end on ACEs without colons in a field. *)
Lemma convert_cases (aces added : list TextAce.t) :
  forallb Spec.well_formed aces = true ->
  ((existsb TextAce.hasInheritanceFlag aces = false
    \/ Spec.coveredCount aces = 3%nat)
   /\ Acl.convert (Acl.mk aces added) = (Return false, Acl.mk aces added))
  \/ ((Spec.coveredCount aces = 1%nat \/ Spec.coveredCount aces = 2%nat)
      /\ Acl.convert (Acl.mk aces added)
         = (Raise (RuntimeError Acl.not_all_inherited), Acl.mk aces added))
  \/ (existsb TextAce.hasInheritanceFlag aces = true
      /\ Spec.coveredCount aces = 0%nat
      /\ exists principal,
           In principal SPECIAL_PRINCIPALS /\ Spec.rules_broken aces principal
           /\ Acl.convert (Acl.mk aces added)
              = (Raise (RuntimeError (Acl.too_many_rules principal)),
                 Acl.mk aces added))
  \/ (existsb TextAce.hasInheritanceFlag aces = true
      /\ Spec.coveredCount aces = 0%nat
      /\ Forall (Spec.rules_ok aces) SPECIAL_PRINCIPALS
      /\ Acl.convert (Acl.mk aces added)
         = (Return true,
            Acl.mk aces
              (added ++ map Spec.inherit_copy (filter Spec.clonable aces)))).
Proof.
  intros Hwf. rewrite !convert_unfold. cbn [Acl._aces].
  pose proof (coveredCount_le aces) as Hle.
  destruct (existsb TextAce.hasInheritanceFlag aces) eqn:Hinh;
    [|left; split; [now left | reflexivity]].
  destruct (Spec.coveredCount aces =? 3)%nat eqn:H3.
  { apply Nat.eqb_eq in H3. left. split; [now right | reflexivity]. }
  apply Nat.eqb_neq in H3.
  destruct (0 <? Spec.coveredCount aces)%nat eqn:H0.
  { apply Nat.ltb_lt in H0. right; left. split; [lia | reflexivity]. }
  apply Nat.ltb_ge in H0. assert (Hcov : Spec.coveredCount aces = 0%nat) by lia.
  right; right.
  destruct (check_rules_cases SPECIAL_PRINCIPALS aces (Acl.mk aces added))
    as [[Hall Hok] | (p & Hin & Hp & Hbad)].
  - right. rewrite Hok, (add_aces_well_formed _ _ _ Hwf). now repeat split.
  - left. split; [reflexivity|]. split; [exact Hcov|].
    exists p. rewrite Hbad. now repeat split.
Qed.

(** X5.  An ACL in which all three special principals already own an
    inheritance ACE is left alone, whatever its rule counts. *)
Theorem convert_fully_covered_unchanged (aces added : list TextAce.t) :
  Spec.coveredCount aces = 3%nat ->
  Acl.convert (Acl.mk aces added) = (Return false, Acl.mk aces added).
Proof.
  intros Hcov. rewrite convert_unfold. cbn [Acl._aces].
  destruct (existsb TextAce.hasInheritanceFlag aces) eqn:E.
  - now rewrite Hcov.
  - reflexivity.
Qed.

Lemma fully_covered_witness :
  Acl.convert (Acl.mk (example_aces ++ example_added) [])
  = (Return false, Acl.mk (example_aces ++ example_added) []).
Proof.
  apply convert_fully_covered_unchanged. reflexivity.
Defined.

(** X6.  On an ACL built by [Acl.__init__], [convert] ends in exactly one of
    four ways, decided by the inheritance flags, the coverage of the
    special principals and the rule counts; the assertion of
    [TextAce.__init__] never fails on the lines it builds. *)
Theorem convert_outcomes (text : string) (self : Acl.t) :
  Acl.__init__ text = Return self ->
  ((existsb TextAce.hasInheritanceFlag (Acl._aces self) = false
    \/ Spec.coveredCount (Acl._aces self) = 3%nat)
   /\ Acl.convert self = (Return false, self))
  \/ ((Spec.coveredCount (Acl._aces self) = 1%nat
       \/ Spec.coveredCount (Acl._aces self) = 2%nat)
      /\ Acl.convert self = (Raise (RuntimeError Acl.not_all_inherited), self))
  \/ (existsb TextAce.hasInheritanceFlag (Acl._aces self) = true
      /\ Spec.coveredCount (Acl._aces self) = 0%nat
      /\ exists principal,
           In principal SPECIAL_PRINCIPALS
           /\ Spec.rules_broken (Acl._aces self) principal
           /\ Acl.convert self
              = (Raise (RuntimeError (Acl.too_many_rules principal)), self))
  \/ (existsb TextAce.hasInheritanceFlag (Acl._aces self) = true
      /\ Spec.coveredCount (Acl._aces self) = 0%nat
      /\ Forall (Spec.rules_ok (Acl._aces self)) SPECIAL_PRINCIPALS
      /\ Acl.convert self
         = (Return true,
            Acl.mk (Acl._aces self)
              (map Spec.inherit_copy (filter Spec.clonable (Acl._aces self))))).
Proof.
  intros Hparse. destruct (Acl_init_inv _ _ Hparse) as [Hwf Hadded].
  destruct self as [aces added]. cbn [Acl._aces Acl._added_aces] in *. subst added.
  exact (convert_cases aces [] Hwf).
Qed.

Lemma convert_outcomes_witness :
  let self := Acl.mk example_aces [] in
  ((existsb TextAce.hasInheritanceFlag (Acl._aces self) = false
    \/ Spec.coveredCount (Acl._aces self) = 3%nat)
   /\ Acl.convert self = (Return false, self))
  \/ ((Spec.coveredCount (Acl._aces self) = 1%nat
       \/ Spec.coveredCount (Acl._aces self) = 2%nat)
      /\ Acl.convert self = (Raise (RuntimeError Acl.not_all_inherited), self))
  \/ (existsb TextAce.hasInheritanceFlag (Acl._aces self) = true
      /\ Spec.coveredCount (Acl._aces self) = 0%nat
      /\ exists principal,
           In principal SPECIAL_PRINCIPALS
           /\ Spec.rules_broken (Acl._aces self) principal
           /\ Acl.convert self
              = (Raise (RuntimeError (Acl.too_many_rules principal)), self))
  \/ (existsb TextAce.hasInheritanceFlag (Acl._aces self) = true
      /\ Spec.coveredCount (Acl._aces self) = 0%nat
      /\ Forall (Spec.rules_ok (Acl._aces self)) SPECIAL_PRINCIPALS
      /\ Acl.convert self
         = (Return true,
            Acl.mk (Acl._aces self)
              (map Spec.inherit_copy (filter Spec.clonable (Acl._aces self))))).
Proof.
  exact (convert_outcomes example_text (Acl.mk example_aces []) eq_refl).
Defined.

Lemma add_aces_extends (aces : list TextAce.t) (self : Acl.t) :
  Acl._aces (snd (Acl.add_aces aces self)) = Acl._aces self
  /\ exists new,
       Acl._added_aces (snd (Acl.add_aces aces self))
       = (Acl._added_aces self ++ new)%list.
Proof.
  revert self. induction aces as [|a aces IH]; intros self.
  - split; [reflexivity|]. exists []. cbn. now rewrite app_nil_r.
  - cbn [Acl.add_aces]. unfold Acl.bind at 1.
    destruct (TextAce.isAllowAce a && TextAce.hasSpecialPrincipal a).
    + unfold Acl.bind, Acl.lift, Acl.append_added.
      destruct (TextAce.__init__ (Acl.new_ace_line a)) as [n|e].
      * destruct (IH (Acl.mk (Acl._aces self) (Acl._added_aces self ++ [n])))
          as [Ha (new & Hn)].
        cbn [Acl._aces Acl._added_aces] in Ha, Hn.
        split; [exact Ha|]. exists (n :: new). rewrite Hn, <- app_assoc. reflexivity.
      * split; [reflexivity|]. exists []. cbn. now rewrite app_nil_r.
    + unfold Acl.ret. apply IH.
Qed.

(** X7.  Whatever [convert] answers, also when an exception escapes, the
    original ACEs are untouched and the added list only grows at its end;
    the text printed afterwards starts with the text printed before. *)
Theorem convert_keeps_originals (self : Acl.t) :
  Acl._aces (snd (Acl.convert self)) = Acl._aces self
  /\ exists new,
       Acl._added_aces (snd (Acl.convert self))
       = (Acl._added_aces self ++ new)%list
       /\ Acl.toString (snd (Acl.convert self))
          = Acl.toString self ++ Spec.serialize new.
Proof.
  assert (H : Acl._aces (snd (Acl.convert self)) = Acl._aces self
              /\ exists new,
                   Acl._added_aces (snd (Acl.convert self))
                   = (Acl._added_aces self ++ new)%list).
  { assert (Hsame : Acl._aces self = Acl._aces self
                    /\ exists new, Acl._added_aces self
                                   = (Acl._added_aces self ++ new)%list).
    { split; [reflexivity|]. exists []. now rewrite app_nil_r. }
    rewrite convert_unfold.
    destruct (existsb TextAce.hasInheritanceFlag (Acl._aces self)); [|exact Hsame].
    destruct (Spec.coveredCount (Acl._aces self) =? 3)%nat; [exact Hsame|].
    destruct (0 <? Spec.coveredCount (Acl._aces self))%nat; [exact Hsame|].
    destruct (check_rules_cases SPECIAL_PRINCIPALS (Acl._aces self) self)
      as [[_ Hok] | (p & _ & _ & Hbad)].
    - rewrite Hok. pose proof (add_aces_extends (Acl._aces self) self) as Hext.
      destruct (Acl.add_aces (Acl._aces self) self) as [[u|e] s]; exact Hext.
    - rewrite Hbad. exact Hsame. }
  destruct H as [Haces (new & Hnew)]. split; [exact Haces|].
  exists new. split; [exact Hnew|].
  rewrite !Acl_toString_serialize, Haces, Hnew, serialize_app, append_assoc.
  reflexivity.
Qed.

(* ----------------------------------------------------------------- *)
(** *** What is added, and what a second run does *)

Lemma special_not_inherited (aces : list TextAce.t) (a : TextAce.t) :
  Spec.coveredCount aces = 0%nat -> In a aces ->
  TextAce.hasSpecialPrincipal a = true ->
  TextAce.hasInheritanceFlag a = false.
Proof.
  intros Hcov Hin Hsp.
  apply existsb_exists in Hsp as (p & Hp & Heq).
  assert (Hc : Spec.covered aces p = false).
  { unfold Spec.coveredCount in Hcov.
    destruct (Spec.covered aces p) eqn:C; [|reflexivity].
    assert (Hf : In p (filter (Spec.covered aces) SPECIAL_PRINCIPALS))
      by (apply filter_In; now split).
    destruct (filter (Spec.covered aces) SPECIAL_PRINCIPALS); [contradiction | discriminate]. }
  destruct (TextAce.hasInheritanceFlag a) eqn:Hinh; [|reflexivity].
  assert (Spec.covered aces p = true); [|congruence].
  apply existsb_exists. exists a. split; [exact Hin|]. now rewrite Hinh, Heq.
Qed.

Lemma filter_length_impl {A} (P Q : A -> bool) (xs : list A) :
  (forall a, In a xs -> P a = true -> Q a = true) ->
  (List.length (filter P xs) <= List.length (filter Q xs))%nat.
Proof.
  induction xs as [|x xs IH]; intros H; [reflexivity|].
  assert (IH' := IH (fun a Ha => H a (or_intror Ha))).
  cbn [filter]. destruct (P x) eqn:Px.
  - rewrite (H x (or_introl eq_refl) Px). cbn. lia.
  - destruct (Q x); cbn; lia.
Qed.

(** At most one selected element per key means distinct keys. *)
Lemma nodup_by_count {A} (key : A -> string) (sel : A -> bool) (xs : list A) :
  (forall k, (List.length
                (filter (fun a => String.eqb (key a) k && sel a) xs) <= 1)%nat) ->
  NoDup (map key (filter sel xs)).
Proof.
  induction xs as [|x xs IH]; intros H; [constructor|].
  assert (Hxs : forall k, (List.length
              (filter (fun a => String.eqb (key a) k && sel a) xs) <= 1)%nat).
  { intros k. specialize (H k). cbn [filter] in H.
    destruct (String.eqb (key x) k && sel x); cbn in H; lia. }
  cbn [filter]. destruct (sel x) eqn:Sx; [|exact (IH Hxs)].
  cbn [map]. constructor; [|exact (IH Hxs)].
  intros Hin. apply in_map_iff in Hin as (b & Hkey & Hb).
  apply filter_In in Hb as [Hb Sb].
  specialize (H (key x)). cbn [filter] in H.
  rewrite String.eqb_refl, Sx in H. cbn in H.
  assert (Hin : In b (filter (fun a => String.eqb (key a) (key x) && sel a) xs)).
  { apply filter_In. split; [exact Hb|]. now rewrite Hkey, String.eqb_refl, Sb. }
  destruct (filter (fun a => String.eqb (key a) (key x) && sel a) xs);
    [contradiction | cbn in H; lia].
Qed.

Lemma clonable_principal_special (a : TextAce.t) :
  Spec.clonable a = true -> In (TextAce._principal a) SPECIAL_PRINCIPALS.
Proof.
  unfold Spec.clonable. intros H. apply andb_true_iff in H as [_ H].
  apply existsb_exists in H as (p & Hp & Heq).
  apply String.eqb_eq in Heq. now rewrite Heq.
Qed.

Lemma clonable_principals_nodup (aces : list TextAce.t) :
  Spec.coveredCount aces = 0%nat ->
  Forall (Spec.rules_ok aces) SPECIAL_PRINCIPALS ->
  NoDup (map TextAce._principal (filter Spec.clonable aces)).
Proof.
  intros Hcov Hrules. apply nodup_by_count. intros k.
  destruct (in_dec string_dec k SPECIAL_PRINCIPALS) as [Hk|Hk].
  - rewrite Forall_forall in Hrules. destruct (Hrules k Hk) as [Hallow _].
    unfold Acl.num_allow_aces in Hallow. rewrite count_length in Hallow.
    eapply Nat.le_trans; [|exact Hallow].
    apply filter_length_impl. intros a Ha Hsel.
    apply andb_true_iff in Hsel as [Heq Hcl].
    unfold Spec.clonable in Hcl. apply andb_true_iff in Hcl as [Hal Hsp].
    unfold TextAce.getPrincipal.
    now rewrite Heq, Hal, (special_not_inherited aces a Hcov Ha Hsp).
  - eapply Nat.le_trans;
      [apply (filter_length_impl _ (fun _ => false))|].
    + intros a _ Hsel. apply andb_true_iff in Hsel as [Heq Hcl].
      apply String.eqb_eq in Heq. subst k.
      elim Hk. now apply clonable_principal_special.
    + clear. induction aces as [|a aces IH]; [cbn; lia | exact IH].
Qed.

Lemma inherit_copy_principals (aces : list TextAce.t) :
  map TextAce._principal (map Spec.inherit_copy aces)
  = map TextAce._principal aces.
Proof. rewrite map_map. reflexivity. Qed.

Lemma special_principals_nodup : NoDup SPECIAL_PRINCIPALS.
Proof.
  unfold SPECIAL_PRINCIPALS.
  repeat constructor; cbn; intros H;
    repeat (destruct H as [H|H]; [discriminate H|]); exact H.
Qed.

(** X8.  When [convert] answers [True] on a parsed ACL, every added ACE is an
    allow ACE of a special principal with the three flags [f], [d] and
    [i]; no special principal gets two of them, so at most three ACEs are
    added. *)
Theorem converted_added_aces (text : string) (self self' : Acl.t) :
  Acl.__init__ text = Return self ->
  Acl.convert self = (Return true, self') ->
  Forall (fun a => TextAce.isAllowAce a = true
                   /\ TextAce.hasSpecialPrincipal a = true
                   /\ Wire.inherit_only a = true)
         (Acl._added_aces self')
  /\ NoDup (map TextAce._principal (Acl._added_aces self'))
  /\ (List.length (Acl._added_aces self') <= 3)%nat.
Proof.
  intros Hparse Hrun. destruct (Acl_init_inv _ _ Hparse) as [Hwf Hadded].
  destruct self as [aces added]. cbn [Acl._aces Acl._added_aces] in *. subst added.
  apply convert_true_inv in Hrun as (_ & Hcov & Hrules & ->); [|exact Hwf].
  cbn [Acl._added_aces app].
  pose proof (clonable_principals_nodup aces Hcov Hrules) as Hnd.
  split; [|split].
  - apply Forall_forall. intros c Hc.
    apply in_map_iff in Hc as (a & <- & Ha). apply filter_In in Ha as [_ Hcl].
    unfold Spec.clonable in Hcl. apply andb_true_iff in Hcl as [Hal Hsp].
    split; [exact Hal | split; [exact Hsp|]].
    unfold Wire.inherit_only, Spec.inherit_copy. cbn.
    now rewrite ?orb_true_r.
  - now rewrite inherit_copy_principals.
  - rewrite <- (length_map TextAce._principal), inherit_copy_principals.
    apply (NoDup_incl_length Hnd (l' := SPECIAL_PRINCIPALS)).
    intros p Hp. apply in_map_iff in Hp as (a & <- & Ha).
    apply filter_In in Ha as [_ Hcl]. now apply clonable_principal_special.
Qed.

Lemma converted_added_aces_witness :
  Forall (fun a => TextAce.isAllowAce a = true
                   /\ TextAce.hasSpecialPrincipal a = true
                   /\ Wire.inherit_only a = true)
         example_added
  /\ NoDup (map TextAce._principal example_added)
  /\ (List.length example_added <= 3)%nat.
Proof.
  exact (converted_added_aces example_text (Acl.mk example_aces [])
           (Acl.mk example_aces example_added) eq_refl eq_refl).
Defined.

Lemma filter_mem_length (M S : list string) :
  NoDup M -> NoDup S -> incl M S ->
  List.length (filter (fun p => existsb (String.eqb p) M) S) = List.length M.
Proof.
  intros HM HS Hincl. apply Permutation_length.
  apply NoDup_Permutation; [now apply NoDup_filter | exact HM |].
  intros x. rewrite filter_In, existsb_exists. split.
  - intros [_ (y & Hy & Heq)]. apply String.eqb_eq in Heq. now subst y.
  - intros Hx. split; [now apply Hincl|]. exists x. split; [exact Hx|].
    apply String.eqb_refl.
Qed.

(** After a conversion, the covered special principals are those that
    received a copy. *)
Lemma coveredCount_after (aces : list TextAce.t) :
  Spec.coveredCount aces = 0%nat ->
  Forall (Spec.rules_ok aces) SPECIAL_PRINCIPALS ->
  Spec.coveredCount
    (aces ++ map Spec.inherit_copy (filter Spec.clonable aces))
  = List.length (filter Spec.clonable aces).
Proof.
  intros Hcov Hrules.
  rewrite <- (length_map TextAce._principal (filter Spec.clonable aces)).
  rewrite <- (filter_mem_length _ SPECIAL_PRINCIPALS
                (clonable_principals_nodup aces Hcov Hrules)
                special_principals_nodup).
  - unfold Spec.coveredCount. f_equal. apply filter_ext_in. intros p Hp.
    unfold Spec.covered. rewrite existsb_app.
    assert (Hnone : existsb (fun a => TextAce.hasInheritanceFlag a
                       && String.eqb (TextAce._principal a) p) aces = false).
    { destruct (existsb _ aces) eqn:E; [|reflexivity].
      apply existsb_exists in E as (a & Ha & Hf).
      apply andb_true_iff in Hf as [Hinh Heq].
      rewrite (special_not_inherited aces a Hcov Ha) in Hinh; [discriminate|].
      apply existsb_exists. exists p. now split. }
    rewrite Hnone. cbn [orb].
    induction (filter Spec.clonable aces) as [|a l IH]; [reflexivity|].
    cbn [map existsb]. rewrite IH, inherit_copy_inherits. cbn.
    now rewrite (String.eqb_sym p).
  - intros p Hp. apply in_map_iff in Hp as (a & <- & Ha).
    apply filter_In in Ha as [_ Hcl]. now apply clonable_principal_special.
Qed.

(** X9.  A second run on the combined list never adds anything.  Its answer
    depends on how many copies the first run made: none, and it answers
    [True] again; one or two, and it raises the error about incomplete
    inheritance; three, and it answers [False]. *)
Theorem second_convert_adds_nothing (text : string) (self self' : Acl.t) :
  Acl.__init__ text = Return self ->
  Acl.convert self = (Return true, self') ->
  Acl.convert (Acl.mk (Acl._aces self' ++ Acl._added_aces self') [])
  = (match List.length (Acl._added_aces self') with
     | 0 => Return true
     | 1 | 2 => Raise (RuntimeError Acl.not_all_inherited)
     | _ => Return false
     end%nat,
     Acl.mk (Acl._aces self' ++ Acl._added_aces self') []).
Proof.
  intros Hparse Hrun. destruct (Acl_init_inv _ _ Hparse) as [Hwf Hadded].
  destruct self as [aces added]. cbn [Acl._aces Acl._added_aces] in *. subst added.
  apply convert_true_inv in Hrun as (Hinh & Hcov & Hrules & ->); [|exact Hwf].
  cbn [Acl._aces Acl._added_aces app].
  pose proof (coveredCount_after aces Hcov Hrules) as Hafter.
  assert (Hle : (List.length (filter Spec.clonable aces) <= 3)%nat).
  { rewrite <- Hafter. apply coveredCount_le. }
  rewrite length_map.
  destruct (filter Spec.clonable aces) as [|a1 l] eqn:L.
  - cbn [map List.length]. rewrite app_nil_r.
    rewrite (convert_accepted aces [] Hwf Hinh Hcov Hrules), L. reflexivity.
  - rewrite convert_unfold. cbn [Acl._aces].
    rewrite existsb_app, Hinh, Hafter. cbn [orb].
    destruct l as [|a2 [|a3 [|a4 l]]]; cbn in Hle |- *; try reflexivity. lia.
Qed.

Lemma second_convert_witness :
  Acl.convert (Acl.mk (example_aces ++ example_added) [])
  = (Return false, Acl.mk (example_aces ++ example_added) []).
Proof.
  exact (second_convert_adds_nothing example_text (Acl.mk example_aces [])
           (Acl.mk example_aces example_added) eq_refl eq_refl).
Defined.

(** X10.  What [toString] prints after [convert], whatever the outcome, is
    parsed by [Acl.__init__] into the original ACEs followed by the added
    ones, with an empty added list. *)
Theorem converted_text_parses_back (text : string) (self : Acl.t) :
  Acl.__init__ text = Return self ->
  Acl.__init__ (Acl.toString (snd (Acl.convert self)))
  = Return (Acl.mk (Acl._aces (snd (Acl.convert self))
                      ++ Acl._added_aces (snd (Acl.convert self))) []).
Proof.
  intros Hparse.
  destruct (Acl_init_returns _ _ Hparse) as (_ & Hadded & Hlist).
  destruct (Acl_init_inv _ _ Hparse) as [Hwf _].
  destruct self as [aces added]. cbn [Acl._aces Acl._added_aces] in *. subst added.
  rewrite Acl_toString_serialize, <- serialize_app.
  apply Acl_init_serialize.
  destruct (convert_cases aces [] Hwf)
    as [[_ ->] | [[_ ->] | [(_ & _ & p & _ & _ & ->) | (_ & _ & _ & ->)]]];
    cbn [snd Acl._aces Acl._added_aces app]; rewrite ?app_nil_r; try exact Hlist.
  rewrite forallb_app, Hlist. cbn [andb].
  apply forallb_forall. intros c Hc.
  apply in_map_iff in Hc as (a & <- & Ha). apply filter_In in Ha as [Ha _].
  apply inherit_copy_listable. rewrite forallb_forall in Hlist. now apply Hlist.
Qed.

Lemma converted_text_parses_back_witness :
  Acl.__init__ (Acl.toString (snd (Acl.convert (Acl.mk example_aces []))))
  = Return (Acl.mk (Acl._aces (snd (Acl.convert (Acl.mk example_aces [])))
                      ++ Acl._added_aces (snd (Acl.convert (Acl.mk example_aces []))))
                   []).
Proof.
  exact (converted_text_parses_back example_text (Acl.mk example_aces []) eq_refl).
Defined.

(* ================================================================= *)
(** ** More on the tree-walk callback *)

Section CallbackPaths.

Import AclConverter.

Variable strip : string -> string.
Variable world : World.
Variable options : Options.

Local Abbreviation _processDirectory :=
  (AclConverter._processDirectory strip world options).
Local Abbreviation processEntry := (AclConverter.processEntry strip world options).

(** [_processDirectory], one branch per way out. *)
Lemma processDirectory_unfold (path : string) :
  _processDirectory path
  = match subprocess_run world false (getfacl_command path) with
    | Raise e => (Raise e, [Ran false (getfacl_command path)])
    | Return get_out =>
        if (returncode get_out =? 0)%Z then
          match stdout_decode get_out with
          | Raise e => (Raise e, [Ran false (getfacl_command path)])
          | Return text =>
              match Acl.__init__ text with
              | Raise e => (Raise e, [Ran false (getfacl_command path)])
              | Return acl =>
                  match Acl.convert acl with
                  | (Raise e, _) => (Raise e, [Ran false (getfacl_command path)])
                  | (Return false, _) =>
                      (Return tt, [Ran false (getfacl_command path)])
                  | (Return true, acl') =>
                      if dry_run options
                      then (Return tt,
                            [Ran false (getfacl_command path);
                             Stdout (path ++ linesep ++ Acl.toString acl')])
                      else
                        let command := setfacl_command (Acl.toString acl') path in
                        match subprocess_run world true command with
                        | Raise e =>
                            (Raise e, [Ran false (getfacl_command path);
                                       Ran true command])
                        | Return set_out =>
                            if (returncode set_out =? 0)%Z
                            then (Return tt, [Ran false (getfacl_command path);
                                              Ran true command])
                            else
                              match stderr_decode set_out with
                              | Raise e =>
                                  (Raise e, [Ran false (getfacl_command path);
                                             Ran true command])
                              | Return err =>
                                  (Return tt,
                                   [Ran false (getfacl_command path);
                                    Ran true command;
                                    failure_report path
                                      ("Failed to run nfs4_setfacl: " ++ strip err)])
                              end
                        end
                  end
              end
          end
        else
          match stderr_decode get_out with
          | Raise e => (Raise e, [Ran false (getfacl_command path)])
          | Return err =>
              (Return tt,
               [Ran false (getfacl_command path);
                failure_report path ("Failed to run nfs4_getfacl: " ++ strip err)])
          end
    end.
Proof.
  destruct (subprocess_run world false (getfacl_command path)) as [get_out|e] eqn:Hrun.
  - destruct (returncode get_out =? 0)%Z eqn:Hrc.
    + apply Z.eqb_eq in Hrc.
      destruct (stdout_decode get_out) as [text|e] eqn:Hout.
      * destruct (Acl.__init__ text) as [acl|e] eqn:Hparse.
        -- exact (processDirectory_fetched strip world options path text get_out acl
                    Hrun Hrc Hout Hparse).
        -- unfold AclConverter._processDirectory, run, bind, emit, lift.
           rewrite Hrun, Hrc, Hout, Hparse. reflexivity.
      * unfold AclConverter._processDirectory, run, bind, emit, lift.
        rewrite Hrun, Hrc, Hout. reflexivity.
    + unfold AclConverter._processDirectory, run, bind, emit, lift.
      rewrite Hrun, Hrc. cbn [negb].
      destruct (stderr_decode get_out); reflexivity.
  - unfold AclConverter._processDirectory, run, bind, emit, lift.
    rewrite Hrun. reflexivity.
Qed.

Lemma processEntry_unfold (path : string) :
  processEntry path
  = if negb (islink world path) && isdir world path
    then match _processDirectory path with
         | (Return _, tr) => (Return true, tr)
         | (Raise e, tr) =>
             (Return false, (tr ++ [failure_report path (str_exn e)])%list)
         end
    else (Return false, []).
Proof.
  unfold AclConverter.processEntry.
  destruct (negb (islink world path) && isdir world path); [|reflexivity].
  unfold bind at 1.
  destruct (AclConverter._processDirectory strip world options path) as [[u|e] tr];
    cbn; [now rewrite app_nil_r | reflexivity].
Qed.

(** The commands [_processDirectory] runs: the listing of the directory
    and, outside a dry run and only after a conversion, the write-back of
    the converted text. *)
Lemma processDirectory_commands (path command : string) (shell : bool) :
  In (Ran shell command) (snd (_processDirectory path)) ->
  (shell = false /\ command = getfacl_command path)
  \/ (shell = true /\ dry_run options = false
      /\ exists get_out text acl acl',
           subprocess_run world false (getfacl_command path) = Return get_out
           /\ stdout_decode get_out = Return text
           /\ Acl.__init__ text = Return acl
           /\ Acl.convert acl = (Return true, acl')
           /\ command = setfacl_command (Acl.toString acl') path).
Proof.
  rewrite processDirectory_unfold.
  assert (Hfirst : forall r : result unit,
             In (Ran shell command) (snd (r, [Ran false (getfacl_command path)])) ->
             shell = false /\ command = getfacl_command path).
  { intros r [[= <- <-]|[]]. now split. }
  destruct (subprocess_run world false (getfacl_command path)) as [get_out|e] eqn:Hrun;
    [|intros H; left; exact (Hfirst _ H)].
  destruct (returncode get_out =? 0)%Z.
  2:{ destruct (stderr_decode get_out); [|intros H; left; exact (Hfirst _ H)].
      intros [[= <- <-]|[[=]|[]]]. left. now split. }
  destruct (stdout_decode get_out) as [text|e] eqn:Hout;
    [|intros H; left; exact (Hfirst _ H)].
  destruct (Acl.__init__ text) as [acl|e] eqn:Hparse;
    [|intros H; left; exact (Hfirst _ H)].
  destruct (Acl.convert acl) as [[[|]|e] acl'] eqn:Hconv;
    try (intros H; left; exact (Hfirst _ H)).
  destruct (dry_run options) eqn:Hdry.
  { intros [[= <- <-]|[[=]|[]]]. left. now split. }
  cbv zeta.
  match goal with
  | |- _ -> ?C =>
      assert (Hsecond : forall (r : result unit) rest,
                 (forall c s, ~ In (Ran s c) rest) ->
                 In (Ran shell command)
                    (snd (r, Ran false (getfacl_command path)
                             :: Ran true (setfacl_command (Acl.toString acl') path)
                             :: rest)) -> C)
  end.
  { intros r rest Hrest [[= <- <-]|[[= <- <-]|H]].
    - left. now split.
    - right. split; [reflexivity|]. split; [reflexivity|].
      exists get_out, text, acl, acl'. now repeat split.
    - elim (Hrest _ _ H). }
  destruct (subprocess_run world true _) as [set_out|e];
    [|apply Hsecond; intros c s []].
  destruct (returncode set_out =? 0)%Z; [apply Hsecond; intros c s []|].
  destruct (stderr_decode set_out);
    apply Hsecond; intros c s H; try destruct H as [[=]|[]]; exact H.
Qed.

Lemma processEntry_events (path : string) (shell : bool) (command : string) :
  In (Ran shell command) (snd (processEntry path)) ->
  In (Ran shell command) (snd (_processDirectory path)).
Proof.
  rewrite processEntry_unfold.
  destruct (negb (islink world path) && isdir world path); [|intros []].
  destruct (_processDirectory path) as [[u|e] tr]; cbn [snd]; [exact (fun H => H)|].
  intros H. apply in_app_or in H as [H|[[=]|[]]]. exact H.
Qed.

End CallbackPaths.

(** X12.  Symbolic links and everything that is not a directory are skipped:
    no command is run, nothing is printed, and the answer is [False]. *)
Theorem processEntry_skips_non_directories
        (strip : string -> string) (world : AclConverter.World)
        (options : AclConverter.Options) (path : string) :
  AclConverter.islink world path = true \/ AclConverter.isdir world path = false ->
  AclConverter.processEntry strip world options path = (Return false, []).
Proof.
  intros H. rewrite processEntry_unfold.
  destruct H as [-> | ->]; [reflexivity | now rewrite andb_false_r].
Qed.

Lemma skips_non_directories_witness :
  AclConverter.processEntry strip_ascii
    (one_directory (completed 0 example_text "")) write_back "/srv/data/file"
  = (Return false, []).
Proof.
  apply processEntry_skips_non_directories. right. reflexivity.
Defined.

(** X13.  [processEntry] answers [True] only for directories that are not
    symbolic links. *)
Theorem processEntry_true_is_directory
        (strip : string -> string) (world : AclConverter.World)
        (options : AclConverter.Options) (path : string) (tr : list AclConverter.event) :
  AclConverter.processEntry strip world options path = (Return true, tr) ->
  AclConverter.islink world path = false /\ AclConverter.isdir world path = true.
Proof.
  rewrite processEntry_unfold.
  destruct (AclConverter.islink world path), (AclConverter.isdir world path);
    cbn; try discriminate. now split.
Qed.

Lemma true_is_directory_witness :
  AclConverter.islink (one_directory (completed 0 example_text "")) "/srv/data" = false
  /\ AclConverter.isdir (one_directory (completed 0 example_text "")) "/srv/data" = true.
Proof.
  exact (processEntry_true_is_directory strip_ascii
           (one_directory (completed 0 example_text "")) dry "/srv/data" _ eq_refl).
Defined.

(** X14.  In a dry run the only command ever run is the listing of the
    directory: nothing is handed to the shell. *)
Theorem dry_run_only_lists
        (strip : string -> string) (world : AclConverter.World)
        (options : AclConverter.Options) (path command : string) (shell : bool) :
  AclConverter.dry_run options = true ->
  In (AclConverter.Ran shell command)
     (snd (AclConverter.processEntry strip world options path)) ->
  shell = false /\ command = AclConverter.getfacl_command path.
Proof.
  intros Hdry Hin. apply processEntry_events in Hin.
  apply processDirectory_commands in Hin as [H | (_ & Hwrite & _)]; [exact H|].
  congruence.
Qed.

Lemma dry_run_only_lists_witness :
  false = false
  /\ "nfs4_getfacl /srv/data" = AclConverter.getfacl_command "/srv/data".
Proof.
  refine (dry_run_only_lists strip_ascii
            (one_directory (completed 0 example_text "")) dry "/srv/data"
            "nfs4_getfacl /srv/data" false eq_refl _).
  vm_compute. left. reflexivity.
Defined.

(** X15.  The shell is only ever given the write-back of a converted ACL: when
    a shell command is run, the run is not a dry run, the listing was
    fetched and parsed, [convert] answered [True], and the command pipes
    the serialized result into [nfs4_setfacl] for that path. *)
Theorem shell_command_is_write_back
        (strip : string -> string) (world : AclConverter.World)
        (options : AclConverter.Options) (path command : string) :
  In (AclConverter.Ran true command)
     (snd (AclConverter.processEntry strip world options path)) ->
  AclConverter.dry_run options = false
  /\ exists get_out text acl acl',
       AclConverter.subprocess_run world false (AclConverter.getfacl_command path)
       = Return get_out
       /\ AclConverter.stdout_decode get_out = Return text
       /\ Acl.__init__ text = Return acl
       /\ Acl.convert acl = (Return true, acl')
       /\ command = AclConverter.setfacl_command (Acl.toString acl') path.
Proof.
  intros Hin. apply processEntry_events in Hin.
  apply processDirectory_commands in Hin as [[Hshell _] | (_ & Hwrite & H)];
    [discriminate | now split].
Qed.

Lemma shell_command_witness :
  AclConverter.dry_run write_back = false
  /\ exists get_out text acl acl',
       AclConverter.subprocess_run (one_directory (completed 0 example_text ""))
         false (AclConverter.getfacl_command "/srv/data")
       = Return get_out
       /\ AclConverter.stdout_decode get_out = Return text
       /\ Acl.__init__ text = Return acl
       /\ Acl.convert acl = (Return true, acl')
       /\ AclConverter.setfacl_command
            (Acl.toString (Acl.mk example_aces example_added)) "/srv/data"
          = AclConverter.setfacl_command (Acl.toString acl') "/srv/data".
Proof.
  refine (shell_command_is_write_back strip_ascii
            (one_directory (completed 0 example_text "")) write_back "/srv/data"
            (AclConverter.setfacl_command
               (Acl.toString (Acl.mk example_aces example_added)) "/srv/data") _).
  vm_compute. right. left. reflexivity.
Defined.

Lemma Acl_init_malformed (text line : string) :
  In line (filter Spec.is_ace_line (split LF text)) ->
  Wire.count_char ":" line <> 3%nat ->
  Acl.__init__ text = Raise AssertionError.
Proof.
  intros Hin Hcount.
  destruct (Acl.__init__ text) as [self|e] eqn:E.
  - exfalso. destruct (Acl_init_returns _ _ E) as (Hmap & _ & Hlist).
    rewrite <- Hmap in Hin. apply in_map_iff in Hin as (a & <- & Ha).
    rewrite forallb_forall in Hlist.
    destruct (listable_inv a (Hlist a Ha)) as (Hwf & _).
    pose proof (TextAce_init_count (Wire.line_of a)) as C.
    rewrite (TextAce_init_line_of a Hwf) in C. contradiction.
  - unfold Acl.__init__ in E.
    destruct (Acl.parse_lines (split LF text) []) as [aces|e'] eqn:P; [discriminate|].
    injection E as <-. now destruct (parse_lines_raises _ _ _ P) as [-> _].
Qed.

(** X16.  A listing with an ACE line that does not hold exactly three colons
    stops the directory: the assertion fails, the report carries the path
    and an empty message, and [processEntry] answers [False]. *)
Theorem processEntry_malformed_listing
        (strip : string -> string) (world : AclConverter.World)
        (options : AclConverter.Options) (path text line : string)
        (get_out : AclConverter.CompletedProcess) :
  AclConverter.islink world path = false ->
  AclConverter.isdir world path = true ->
  AclConverter.subprocess_run world false (AclConverter.getfacl_command path)
  = Return get_out ->
  AclConverter.returncode get_out = 0%Z ->
  AclConverter.stdout_decode get_out = Return text ->
  In line (filter Spec.is_ace_line (split LF text)) ->
  Wire.count_char ":" line <> 3%nat ->
  AclConverter.processEntry strip world options path
  = (Return false,
     [AclConverter.Ran false (AclConverter.getfacl_command path);
      AclConverter.Stderr ("Failed to process " ++ path ++ ": ")]).
Proof.
  intros Hl Hd Hrun Hrc Hout Hin Hcount.
  rewrite processEntry_unfold, Hl, Hd, processDirectory_unfold, Hrun, Hrc, Hout.
  rewrite (Acl_init_malformed text line Hin Hcount). reflexivity.
Qed.

Lemma malformed_listing_witness :
  AclConverter.processEntry strip_ascii
    (one_directory (completed 0 ("A::OWNER@:rwx" ++ linesep ++ "total 0" ++ linesep) ""))
    write_back "/srv/data"
  = (Return false,
     [AclConverter.Ran false (AclConverter.getfacl_command "/srv/data");
      AclConverter.Stderr ("Failed to process " ++ "/srv/data" ++ ": ")]).
Proof.
  refine (processEntry_malformed_listing strip_ascii
            (one_directory
               (completed 0 ("A::OWNER@:rwx" ++ linesep ++ "total 0" ++ linesep) ""))
            write_back "/srv/data" _ "total 0" _
            eq_refl eq_refl eq_refl eq_refl eq_refl _ _).
  - vm_compute. right. left. reflexivity.
  - vm_compute. discriminate.
Defined.

(** X17.  When [convert] answers [False], the directory is expanded and nothing
    is printed or written: the listing is the only command run. *)
Theorem processEntry_unchanged_is_silent
        (strip : string -> string) (world : AclConverter.World)
        (options : AclConverter.Options) (path text : string)
        (get_out : AclConverter.CompletedProcess) (acl acl' : Acl.t) :
  AclConverter.islink world path = false ->
  AclConverter.isdir world path = true ->
  AclConverter.subprocess_run world false (AclConverter.getfacl_command path)
  = Return get_out ->
  AclConverter.returncode get_out = 0%Z ->
  AclConverter.stdout_decode get_out = Return text ->
  Acl.__init__ text = Return acl ->
  Acl.convert acl = (Return false, acl') ->
  AclConverter.processEntry strip world options path
  = (Return true, [AclConverter.Ran false (AclConverter.getfacl_command path)]).
Proof.
  intros Hl Hd Hrun Hrc Hout Hparse Hconv.
  rewrite processEntry_unfold, Hl, Hd, processDirectory_unfold, Hrun, Hrc, Hout,
    Hparse, Hconv. reflexivity.
Qed.

Lemma unchanged_is_silent_witness :
  AclConverter.processEntry strip_ascii
    (one_directory (completed 0 ("A::OWNER@:rwx" ++ linesep) "")) write_back "/srv/data"
  = (Return true, [AclConverter.Ran false (AclConverter.getfacl_command "/srv/data")]).
Proof.
  exact (processEntry_unchanged_is_silent strip_ascii
           (one_directory (completed 0 ("A::OWNER@:rwx" ++ linesep) ""))
           write_back "/srv/data" _ _ _ _
           eq_refl eq_refl eq_refl eq_refl eq_refl eq_refl eq_refl).
Defined.

(** X18.  A dry run on a converted ACL prints one message, the path and the
    serialized ACL on the following lines, runs nothing but the listing,
    and the directory is expanded. *)
Theorem processEntry_dry_run_prints
        (strip : string -> string) (world : AclConverter.World)
        (options : AclConverter.Options) (path text : string)
        (get_out : AclConverter.CompletedProcess) (acl acl' : Acl.t) :
  AclConverter.islink world path = false ->
  AclConverter.isdir world path = true ->
  AclConverter.dry_run options = true ->
  AclConverter.subprocess_run world false (AclConverter.getfacl_command path)
  = Return get_out ->
  AclConverter.returncode get_out = 0%Z ->
  AclConverter.stdout_decode get_out = Return text ->
  Acl.__init__ text = Return acl ->
  Acl.convert acl = (Return true, acl') ->
  AclConverter.processEntry strip world options path
  = (Return true,
     [AclConverter.Ran false (AclConverter.getfacl_command path);
      AclConverter.Stdout
        (path ++ linesep ++ Spec.serialize (Acl._aces acl)
              ++ Spec.serialize (Acl._added_aces acl'))]).
Proof.
  intros Hl Hd Hdry Hrun Hrc Hout Hparse Hconv.
  rewrite processEntry_unfold, Hl, Hd, processDirectory_unfold, Hrun, Hrc, Hout,
    Hparse, Hconv, Hdry. cbn [negb andb].
  rewrite Acl_toString_serialize.
  destruct (Acl_init_inv _ _ Hparse) as [Hwf Hadded].
  destruct acl as [aces added]. cbn [Acl._added_aces Acl._aces] in *. subst added.
  apply convert_true_inv in Hconv as (_ & _ & _ & ->); [|exact Hwf].
  reflexivity.
Qed.

Lemma dry_run_prints_witness :
  AclConverter.processEntry strip_ascii
    (one_directory (completed 0 example_text "")) dry "/srv/data"
  = (Return true,
     [AclConverter.Ran false (AclConverter.getfacl_command "/srv/data");
      AclConverter.Stdout
        ("/srv/data" ++ linesep ++ Spec.serialize example_aces
           ++ Spec.serialize example_added)]).
Proof.
  exact (processEntry_dry_run_prints strip_ascii
           (one_directory (completed 0 example_text "")) dry "/srv/data"
           example_text _ (Acl.mk example_aces []) (Acl.mk example_aces example_added)
           eq_refl eq_refl eq_refl eq_refl eq_refl eq_refl eq_refl eq_refl).
Defined.

(** X19.  Outside a dry run a converted ACL is written back with one
    shell command: [echo], the serialized original and added ACEs between
    double quotes, and the pipe into [nfs4_setfacl -S -] for the path.
    With return code zero nothing is printed and the answer is [True]; a
    non-zero code is reported with the path and the stripped error
    output, and the answer is still [True]; when that error output cannot
    be decoded, the decoding exception is reported and the answer is
    [False]. *)
Theorem processEntry_writes_back
        (strip : string -> string) (world : AclConverter.World)
        (options : AclConverter.Options) (path text : string)
        (get_out set_out : AclConverter.CompletedProcess) (acl acl' : Acl.t) :
  AclConverter.islink world path = false ->
  AclConverter.isdir world path = true ->
  AclConverter.dry_run options = false ->
  AclConverter.subprocess_run world false ("nfs4_getfacl " ++ path)
  = Return get_out ->
  AclConverter.returncode get_out = 0%Z ->
  AclConverter.stdout_decode get_out = Return text ->
  Acl.__init__ text = Return acl ->
  Acl.convert acl = (Return true, acl') ->
  let command :=
    "echo " ++ String "034"
      ((Spec.serialize (Acl._aces acl) ++ Spec.serialize (Acl._added_aces acl'))
         ++ String "034" (" | nfs4_setfacl -S - " ++ path)) in
  AclConverter.subprocess_run world true command = Return set_out ->
  AclConverter.processEntry strip world options path
  = if (AclConverter.returncode set_out =? 0)%Z
    then (Return true,
          [AclConverter.Ran false ("nfs4_getfacl " ++ path);
           AclConverter.Ran true command])
    else match AclConverter.stderr_decode set_out with
         | Return err =>
             (Return true,
              [AclConverter.Ran false ("nfs4_getfacl " ++ path);
               AclConverter.Ran true command;
               AclConverter.Stderr
                 ("Failed to process " ++ path ++ ": "
                    ++ "Failed to run nfs4_setfacl: " ++ strip err)])
         | Raise e =>
             (Return false,
              [AclConverter.Ran false ("nfs4_getfacl " ++ path);
               AclConverter.Ran true command;
               AclConverter.Stderr
                 ("Failed to process " ++ path ++ ": " ++ str_exn e)])
         end.
Proof.
  intros Hl Hd Hdry Hrun Hrc Hout Hparse Hconv command Hset.
  assert (Hcmd : AclConverter.setfacl_command (Acl.toString acl') path = command).
  { destruct (Acl_init_inv _ _ Hparse) as [Hwf Hadded].
    destruct acl as [aces added]. cbn [Acl._added_aces Acl._aces] in *. subst added.
    pose proof Hconv as Hinv.
    apply convert_true_inv in Hinv as (_ & _ & _ & ->); [|exact Hwf].
    rewrite Acl_toString_serialize.
    unfold AclConverter.setfacl_command, AclConverter.dquote, command.
    cbn [append Acl._aces Acl._added_aces]. reflexivity. }
  rewrite processEntry_unfold, Hl, Hd, processDirectory_unfold.
  unfold AclConverter.getfacl_command.
  rewrite Hrun, Hrc, Hout, Hparse, Hconv, Hdry. cbv zeta.
  rewrite Hcmd, Hset. cbn [negb andb Z.eqb].
  destruct (AclConverter.returncode set_out =? 0)%Z; [reflexivity|].
  destruct (AclConverter.stderr_decode set_out); reflexivity.
Qed.

Lemma writes_back_witness :
  AclConverter.processEntry strip_ascii
    (one_directory (completed 0 example_text "")) write_back "/srv/data"
  = (Return true,
     [AclConverter.Ran false "nfs4_getfacl /srv/data";
      AclConverter.Ran true
        ("echo " ++ String "034"
           ((example_text ++ "A:fdi:OWNER@:rwaDxtnNcy" ++ linesep
               ++ "A:fdig:GROUP@:rxtncy" ++ linesep
               ++ "A:fdig:EVERYONE@:rxtncy" ++ linesep)
              ++ String "034" " | nfs4_setfacl -S - /srv/data"))]).
Proof.
  exact (processEntry_writes_back strip_ascii
           (one_directory (completed 0 example_text "")) write_back "/srv/data"
           example_text (completed 0 example_text "") (completed 0 "" "")
           (Acl.mk example_aces []) (Acl.mk example_aces example_added)
           eq_refl eq_refl eq_refl eq_refl eq_refl eq_refl eq_refl eq_refl eq_refl).
Defined.

(** X20.  When the listing cannot even be obtained (the command cannot be
    started, or its output cannot be decoded), the exception is reported
    with the path and the directory is not expanded. *)
Theorem processEntry_listing_raises
        (strip : string -> string) (world : AclConverter.World)
        (options : AclConverter.Options) (path : string) (e : exn) :
  AclConverter.islink world path = false ->
  AclConverter.isdir world path = true ->
  AclConverter.subprocess_run world false (AclConverter.getfacl_command path)
  = Raise e
  \/ (exists get_out,
        AclConverter.subprocess_run world false (AclConverter.getfacl_command path)
        = Return get_out
        /\ AclConverter.returncode get_out = 0%Z
        /\ AclConverter.stdout_decode get_out = Raise e) ->
  AclConverter.processEntry strip world options path
  = (Return false,
     [AclConverter.Ran false (AclConverter.getfacl_command path);
      AclConverter.failure_report path (str_exn e)]).
Proof.
  intros Hl Hd H.
  rewrite processEntry_unfold, Hl, Hd, processDirectory_unfold.
  destruct H as [-> | (get_out & -> & -> & ->)]; reflexivity.
Qed.

Lemma listing_raises_witness :
  AclConverter.processEntry strip_ascii missing_tools write_back "/srv/data"
  = (Return false,
     [AclConverter.Ran false (AclConverter.getfacl_command "/srv/data");
      AclConverter.failure_report "/srv/data"
        "[Errno 2] No such file or directory: 'nfs4_getfacl'"]).
Proof.
  refine (processEntry_listing_raises strip_ascii missing_tools write_back "/srv/data"
            (OtherError "[Errno 2] No such file or directory: 'nfs4_getfacl'")
            eq_refl eq_refl _).
  left. reflexivity.
Defined.

(* ================================================================= *)
(** ** The parallel tree walk *)

Section WalkFacts.

Import ParallelTreeWalk.

Variable callback : Callback.
Variable listdir : string -> result (list string).
Variable num_threads : nat.

Local Abbreviation step_thread := (ParallelTreeWalk.step_thread callback listdir).
Local Abbreviation run_schedule := (ParallelTreeWalk.run_schedule callback listdir).

Lemma count_cons {A} (p : A -> bool) (x : A) (xs : list A) :
  count p (x :: xs) = ((if p x then 1 else 0) + count p xs)%nat.
Proof. rewrite !count_length. cbn [filter]. destruct (p x); reflexivity. Qed.

Lemma count_update (i : nat) (t old : thread) (l : list thread) :
  nth_error l i = Some old ->
  (count busy (update i t l) + (if busy old then 1 else 0)
   = count busy l + (if busy t then 1 else 0))%nat.
Proof.
  revert i. induction l as [|x l IH]; intros [|i] H; try discriminate.
  - injection H as ->. cbn [update]. rewrite !count_cons. lia.
  - cbn [update]. rewrite !count_cons. specialize (IH i H). lia.
Qed.

Lemma count_repeat_waiting (n : nat) : count busy (repeat Waiting n) = 0%nat.
Proof. induction n as [|n IH]; [reflexivity|]. cbn [repeat]. now rewrite count_cons, IH. Qed.

Lemma balanced_start (path : string) (s : state) :
  ParallelTreeWalk.start callback num_threads path initial = (Return tt, s) ->
  balanced s.
Proof.
  unfold ParallelTreeWalk.start, balanced, busy_threads.
  destruct (cb_processEntry callback path) as [[[|]|e] tr]; intros [= <-];
    cbn [put log initial threads unfinished_tasks _work_queue app List.length].
  - now rewrite count_repeat_waiting.
  - reflexivity.
Qed.

Lemma on_exception_counts (i : nat) (path : string) (e : exn) (s : state)
      (old : thread) :
  nth_error (threads s) i = Some old ->
  unfinished_tasks (on_exception callback i path e s) = unfinished_tasks s
  /\ _work_queue (on_exception callback i path e s) = _work_queue s
  /\ (busy_threads (on_exception callback i path e s)
        + (if busy old then 1 else 0)
      = busy_threads s + 1)%nat.
Proof.
  intros Hi. unfold on_exception, busy_threads.
  destruct (cb_callOnError callback path e) as [[u|e'] tr];
    cbn [set_thread log threads unfinished_tasks _work_queue].
  - pose proof (count_update i Finishing _ _ Hi) as C. cbn [busy] in C. now repeat split.
  - pose proof (count_update i (Dead e') _ _ Hi) as C. cbn [busy] in C. now repeat split.
Qed.

Lemma balanced_step (i : nat) (s s' : state) :
  balanced s -> step_thread i s = Some s' -> balanced s'.
Proof.
  unfold balanced, ParallelTreeWalk.step_thread. intros Hbal.
  destruct (nth_error (threads s) i) as [[|path [|d ds]| |e]|] eqn:Hi; try discriminate.
  - destruct (_work_queue s) as [|path rest] eqn:Hq; [discriminate|].
    destruct (listdir path) as [ds|e].
    + intros [= <-]. unfold busy_threads in *.
      cbn [set_thread threads unfinished_tasks _work_queue] in *.
      pose proof (count_update i (Expanding path ds) _ _ Hi) as C.
      cbn [busy List.length] in *. lia.
    + intros [= <-].
      set (s1 := {| _work_queue := rest; unfinished_tasks := unfinished_tasks s;
                    threads := threads s; output := output s |}).
      destruct (on_exception_counts i path e s1 Waiting Hi) as (-> & -> & B).
      unfold busy_threads in *. cbn [s1 threads unfinished_tasks _work_queue busy] in *.
      cbn [List.length] in Hbal. lia.
  - intros [= <-]. unfold busy_threads in *.
    cbn [set_thread threads unfinished_tasks _work_queue].
    pose proof (count_update i Finishing _ _ Hi) as C. cbn [busy] in C. lia.
  - destruct (cb_processEntry callback (posixpath.join path d)) as [[[|]|e] tr].
    + intros [= <-]. unfold busy_threads in *.
      cbn [set_thread put log threads unfinished_tasks _work_queue].
      pose proof (count_update i (Expanding path ds) _ _ Hi) as C. cbn [busy] in C.
      rewrite length_app. cbn [List.length]. lia.
    + intros [= <-]. unfold busy_threads in *.
      cbn [set_thread log threads unfinished_tasks _work_queue].
      pose proof (count_update i (Expanding path ds) _ _ Hi) as C. cbn [busy] in C.
      lia.
    + intros [= <-].
      destruct (on_exception_counts i path e (log tr s) _ Hi) as (-> & -> & B).
      unfold busy_threads in *. cbn [log threads unfinished_tasks _work_queue busy] in *.
      lia.
  - pose proof (count_update i Waiting _ _ Hi) as C1.
    pose proof (count_update i (Dead (OtherError "task_done() called too many times"))
                  _ _ Hi) as C2.
    cbn [busy] in C1, C2. unfold busy_threads in *.
    destruct (unfinished_tasks s) as [|n] eqn:Hu; intros [= <-];
      cbn [set_thread threads unfinished_tasks _work_queue]; lia.
Qed.

Lemma balanced_run (schedule : list nat) (s : state) :
  balanced s -> balanced (run_schedule schedule s).
Proof.
  revert s. induction schedule as [|i rest IH]; intros s Hbal; [exact Hbal|].
  cbn [ParallelTreeWalk.run_schedule].
  destruct (step_thread i s) as [s'|] eqn:E; [|exact (IH _ Hbal)].
  exact (IH _ (balanced_step i s s' Hbal E)).
Qed.

Lemma count_busy_zero (l : list thread) :
  count busy l = 0%nat -> Forall (fun t => t = Waiting) l.
Proof.
  induction l as [|t l IH]; [constructor|].
  rewrite count_cons. destruct t; cbn [busy]; try lia.
  intros H. constructor; [reflexivity | apply IH; lia].
Qed.

Lemma count_busy_pos (l : list thread) (i : nat) (t : thread) :
  nth_error l i = Some t -> busy t = true -> (0 < count busy l)%nat.
Proof.
  revert i. induction l as [|x l IH]; intros [|i] H Hb; try discriminate;
    rewrite count_cons.
  - injection H as ->. rewrite Hb. lia.
  - specialize (IH i H Hb). lia.
Qed.

End WalkFacts.

(** X21.  Between [start] and any later moment of the walk, whatever the order
    in which the threads move, [unfinished_tasks] equals the number of
    queued directories plus the number of threads holding one.  Hence
    [task_done] is never called on a zero counter, and when [join]
    returns the queue is empty and every thread is back in [get]. *)
Theorem join_returns_when_all_done
        (callback : ParallelTreeWalk.Callback)
        (listdir : string -> result (list string)) (num_threads : nat)
        (root : string) (schedule : list nat) (s0 : ParallelTreeWalk.state) :
  ParallelTreeWalk.start callback num_threads root ParallelTreeWalk.initial
  = (Return tt, s0) ->
  let s := ParallelTreeWalk.run_schedule callback listdir schedule s0 in
  ParallelTreeWalk.balanced s
  /\ (forall i, nth_error (ParallelTreeWalk.threads s) i
                = Some ParallelTreeWalk.Finishing ->
                (0 < ParallelTreeWalk.unfinished_tasks s)%nat)
  /\ (ParallelTreeWalk.joined s = true ->
      ParallelTreeWalk._work_queue s = []
      /\ Forall (fun t => t = ParallelTreeWalk.Waiting) (ParallelTreeWalk.threads s)).
Proof.
  intros Hstart s.
  assert (Hbal : ParallelTreeWalk.balanced s).
  { apply balanced_run. exact (balanced_start callback num_threads root s0 Hstart). }
  split; [exact Hbal|]. unfold ParallelTreeWalk.balanced in Hbal. split.
  - intros i Hi.
    pose proof (count_busy_pos _ i _ Hi eq_refl) as Hpos.
    unfold ParallelTreeWalk.busy_threads in Hbal. lia.
  - unfold ParallelTreeWalk.joined. intros Hj. apply Nat.eqb_eq in Hj.
    rewrite Hj in Hbal. split.
    + destruct (ParallelTreeWalk._work_queue s); [reflexivity | cbn in Hbal; lia].
    + apply count_busy_zero. unfold ParallelTreeWalk.busy_threads in Hbal. lia.
Qed.

Lemma join_returns_witness :
  let s := ParallelTreeWalk.run_schedule sample_callback sample_listdir sample_schedule
             (snd (ParallelTreeWalk.start sample_callback 2 "/srv"
                     ParallelTreeWalk.initial)) in
  ParallelTreeWalk.balanced s
  /\ (forall i, nth_error (ParallelTreeWalk.threads s) i
                = Some ParallelTreeWalk.Finishing ->
                (0 < ParallelTreeWalk.unfinished_tasks s)%nat)
  /\ (ParallelTreeWalk.joined s = true ->
      ParallelTreeWalk._work_queue s = []
      /\ Forall (fun t => t = ParallelTreeWalk.Waiting) (ParallelTreeWalk.threads s)).
Proof.
  exact (join_returns_when_all_done sample_callback sample_listdir 2 "/srv"
           sample_schedule _ eq_refl).
Defined.

Section WalkPaths.

Import ParallelTreeWalk.

Variable callback : Callback.
Variable listdir : string -> result (list string).

Local Abbreviation step_thread := (ParallelTreeWalk.step_thread callback listdir).
Local Abbreviation run_schedule := (ParallelTreeWalk.run_schedule callback listdir).

Lemma in_flat_map_update (i : nat) (t : thread) (l : list thread) (p : string) :
  In p (flat_map expanded (update i t l)) ->
  In p (expanded t) \/ In p (flat_map expanded l).
Proof.
  revert i. induction l as [|x l IH]; intros i H; [now destruct i|].
  destruct i as [|i]; cbn [update flat_map] in *; apply in_app_or in H as [H|H].
  - now left.
  - right. apply in_or_app. now right.
  - right. apply in_or_app. now left.
  - destruct (IH i H) as [H'|H']; [now left|]. right. apply in_or_app. now right.
Qed.

Lemma in_flat_map_nth (i : nat) (t : thread) (l : list thread) (p : string) :
  nth_error l i = Some t -> In p (expanded t) -> In p (flat_map expanded l).
Proof.
  intros Hi Hp. apply in_flat_map. exists t. split; [|exact Hp].
  exact (nth_error_In l i Hi).
Qed.

Lemma held_set_thread (i : nat) (t : thread) (s : state) (p : string) :
  In p (held (set_thread i t s)) ->
  In p (_work_queue s) \/ In p (expanded t) \/ In p (flat_map expanded (threads s)).
Proof.
  unfold held. cbn [set_thread _work_queue threads]. intros H.
  apply in_app_or in H as [H|H]; [now left|].
  right. exact (in_flat_map_update i t _ p H).
Qed.

Lemma held_on_exception (i : nat) (path : string) (e : exn) (s : state) (p : string) :
  In p (held (on_exception callback i path e s)) -> In p (held s).
Proof.
  unfold on_exception.
  destruct (cb_callOnError callback path e) as [[u|e'] tr]; intros H;
    apply held_set_thread in H as [H|[[]|H]]; unfold held; apply in_or_app;
    cbn [log _work_queue threads] in H; tauto.
Qed.

(** A move only adds children that the callback approved. *)
Lemma held_step (i : nat) (s s' : state) (p : string) :
  step_thread i s = Some s' -> In p (held s') ->
  In p (held s) \/ approved callback p.
Proof.
  unfold ParallelTreeWalk.step_thread.
  destruct (nth_error (threads s) i) as [[|path [|d ds]| |e]|] eqn:Hi; try discriminate.
  - destruct (_work_queue s) as [|path rest] eqn:Hq; [discriminate|].
    destruct (listdir path) as [ds|e]; intros [= <-] H; left.
    + apply held_set_thread in H as [H|[H|H]];
        cbn [_work_queue threads expanded] in H; unfold held; rewrite Hq;
        apply in_or_app; cbn [In] in *; tauto.
    + apply held_on_exception in H. unfold held in *.
      cbn [_work_queue threads] in H. rewrite Hq.
      apply in_app_or in H. apply in_or_app. cbn [In]. tauto.
  - intros [= <-] H. left.
    apply held_set_thread in H as [H|[[]|H]]; unfold held; apply in_or_app; tauto.
  - destruct (cb_processEntry callback (posixpath.join path d)) as [[[|]|e] tr] eqn:Hcb;
      intros [= <-] H.
    + apply held_set_thread in H as [H|[H|H]];
        cbn [put log _work_queue threads expanded] in H.
      * apply in_app_or in H as [H|[<-|[]]].
        -- left. unfold held. apply in_or_app. now left.
        -- right. now exists tr.
      * left. unfold held. apply in_or_app. right.
        exact (in_flat_map_nth i _ _ p Hi H).
      * left. unfold held. apply in_or_app. now right.
    + left. apply held_set_thread in H as [H|[H|H]];
        cbn [log _work_queue threads expanded] in H; unfold held; apply in_or_app.
      * now left.
      * right. exact (in_flat_map_nth i _ _ p Hi H).
      * now right.
    + left. apply held_on_exception in H. exact H.
  - destruct (unfinished_tasks s); intros [= <-] H; left;
      apply held_set_thread in H as [H|[[]|H]]; unfold held; apply in_or_app;
      cbn [_work_queue threads] in H; tauto.
Qed.

Lemma held_run (schedule : list nat) (s : state) :
  Forall (approved callback) (held s) ->
  Forall (approved callback) (held (run_schedule schedule s)).
Proof.
  revert s. induction schedule as [|i rest IH]; intros s H; [exact H|].
  cbn [ParallelTreeWalk.run_schedule].
  destruct (step_thread i s) as [s'|] eqn:E; [|exact (IH _ H)].
  apply IH. apply Forall_forall. intros p Hp.
  destruct (held_step i s s' p E Hp) as [Hold|Hnew]; [|exact Hnew].
  rewrite Forall_forall in H. exact (H p Hold).
Qed.

Lemma held_start (num_threads : nat) (root : string) (s : state) :
  ParallelTreeWalk.start callback num_threads root initial = (Return tt, s) ->
  Forall (approved callback) (held s).
Proof.
  unfold ParallelTreeWalk.start.
  destruct (cb_processEntry callback root) as [[[|]|e] tr] eqn:Hcb; intros [= <-];
    unfold held; cbn [put log initial _work_queue threads app].
  - constructor; [now exists tr|].
    induction num_threads as [|n IH]; [constructor | exact IH].
  - constructor.
Qed.

End WalkPaths.

(** X22.  With [AclConverter] as callback, every path that is queued or being
    listed, at any moment of the walk and under any schedule, is a
    directory and not a symbolic link: the walk never descends into files
    or through links. *)
Theorem walk_holds_only_directories
        (strip : string -> string) (world : AclConverter.World)
        (options : AclConverter.Options)
        (listdir : string -> result (list string)) (num_threads : nat)
        (root : string) (schedule : list nat) (s0 : ParallelTreeWalk.state) :
  ParallelTreeWalk.start (acl_callback strip world options) num_threads root
    ParallelTreeWalk.initial = (Return tt, s0) ->
  Forall (fun path => AclConverter.islink world path = false
                      /\ AclConverter.isdir world path = true)
         (ParallelTreeWalk.held
            (ParallelTreeWalk.run_schedule (acl_callback strip world options)
               listdir schedule s0)).
Proof.
  intros Hstart.
  pose proof (held_run (acl_callback strip world options) listdir schedule s0
                (held_start _ num_threads root s0 Hstart)) as H.
  rewrite Forall_forall in *. intros p Hp. destruct (H p Hp) as [tr Htr].
  cbn [acl_callback ParallelTreeWalk.cb_processEntry] in Htr.
  rewrite processEntry_unfold in Htr.
  destruct (AclConverter.islink world p), (AclConverter.isdir world p);
    cbn in Htr; try discriminate. now split.
Qed.

Lemma walk_holds_only_directories_witness :
  Forall (fun path => AclConverter.islink sample_tree path = false
                      /\ AclConverter.isdir sample_tree path = true)
         (ParallelTreeWalk.held
            (ParallelTreeWalk.run_schedule sample_callback sample_listdir [0; 0]%nat
               (snd (ParallelTreeWalk.start sample_callback 2 "/srv"
                       ParallelTreeWalk.initial)))).
Proof.
  exact (walk_holds_only_directories strip_ascii sample_tree dry sample_listdir 2
           "/srv" [0; 0]%nat _ eq_refl).
Defined.

(** X24.  A root that is a symbolic link or not a directory ends the walk at
    once: no thread is started, nothing is queued, printed or run, and
    [join] returns immediately. *)
Theorem walk_skips_non_directory_root
        (strip : string -> string) (world : AclConverter.World)
        (options : AclConverter.Options)
        (listdir : string -> result (list string)) (num_threads : nat)
        (root : string) (schedule : list nat) :
  AclConverter.islink world root = true \/ AclConverter.isdir world root = false ->
  ParallelTreeWalk.start (acl_callback strip world options) num_threads root
    ParallelTreeWalk.initial = (Return tt, ParallelTreeWalk.initial)
  /\ ParallelTreeWalk.run_schedule (acl_callback strip world options) listdir
       schedule ParallelTreeWalk.initial = ParallelTreeWalk.initial
  /\ ParallelTreeWalk.joined ParallelTreeWalk.initial = true.
Proof.
  intros H. split; [|split; [|reflexivity]].
  - unfold ParallelTreeWalk.start. cbn [acl_callback ParallelTreeWalk.cb_processEntry].
    rewrite processEntry_unfold.
    destruct H as [-> | ->]; [|rewrite andb_false_r]; reflexivity.
  - induction schedule as [|i rest IH]; [reflexivity|].
    cbn [ParallelTreeWalk.run_schedule]. unfold ParallelTreeWalk.step_thread.
    cbn [ParallelTreeWalk.initial ParallelTreeWalk.threads].
    destruct i; exact IH.
Qed.

Lemma walk_skips_root_witness :
  ParallelTreeWalk.start sample_callback 2 "/srv/link" ParallelTreeWalk.initial
  = (Return tt, ParallelTreeWalk.initial)
  /\ ParallelTreeWalk.run_schedule sample_callback sample_listdir sample_schedule
       ParallelTreeWalk.initial = ParallelTreeWalk.initial
  /\ ParallelTreeWalk.joined ParallelTreeWalk.initial = true.
Proof.
  apply (walk_skips_non_directory_root strip_ascii sample_tree dry sample_listdir 2
           "/srv/link" sample_schedule).
  left. reflexivity.
Defined.

(** X25.  When a directory taken from the queue cannot be listed, the thread
    reports the error for that directory, queues nothing, and its next move
    marks the task as done: the counter drops by one and the thread waits
    for the next directory. *)
Theorem walk_listing_failure
        (strip : string -> string) (world : AclConverter.World)
        (options : AclConverter.Options)
        (listdir : string -> result (list string))
        (i : nat) (s : ParallelTreeWalk.state) (path : string) (rest : list string)
        (e : exn) (n : nat) :
  nth_error (ParallelTreeWalk.threads s) i = Some ParallelTreeWalk.Waiting ->
  ParallelTreeWalk._work_queue s = path :: rest ->
  ParallelTreeWalk.unfinished_tasks s = S n ->
  listdir path = Raise e ->
  ParallelTreeWalk.run_schedule (acl_callback strip world options) listdir [i; i] s
  = {| ParallelTreeWalk._work_queue := rest;
       ParallelTreeWalk.unfinished_tasks := n;
       ParallelTreeWalk.threads := ParallelTreeWalk.threads s;
       ParallelTreeWalk.output :=
         (ParallelTreeWalk.output s
            ++ [AclConverter.failure_report path (str_exn e)])%list |}.
Proof.
  intros Hi Hq Hu Hlist.
  assert (Hupd : forall t l, nth_error l i = Some ParallelTreeWalk.Waiting ->
             nth_error (ParallelTreeWalk.update i t l) i = Some t
             /\ ParallelTreeWalk.update i ParallelTreeWalk.Waiting
                  (ParallelTreeWalk.update i t l) = l).
  { intros t l. clear. revert i. induction l as [|x l IH]; intros [|i] H;
      try discriminate; cbn in *.
    - injection H as ->. now split.
    - destruct (IH i H) as [H1 H2]. split; [exact H1 | now rewrite H2]. }
  cbn [ParallelTreeWalk.run_schedule].
  unfold ParallelTreeWalk.step_thread at 1. rewrite Hi, Hq, Hlist.
  unfold ParallelTreeWalk.on_exception.
  cbn [acl_callback ParallelTreeWalk.cb_callOnError AclConverter.callOnError
       AclConverter._logError AclConverter.emit ParallelTreeWalk.log
       ParallelTreeWalk.set_thread ParallelTreeWalk.threads
       ParallelTreeWalk._work_queue ParallelTreeWalk.unfinished_tasks
       ParallelTreeWalk.output].
  destruct (Hupd ParallelTreeWalk.Finishing _ Hi) as [H1 H2].
  unfold ParallelTreeWalk.step_thread.
  cbn [ParallelTreeWalk.set_thread ParallelTreeWalk.log ParallelTreeWalk.threads
       ParallelTreeWalk._work_queue ParallelTreeWalk.unfinished_tasks
       ParallelTreeWalk.output].
  rewrite H1, Hu.
  cbn [ParallelTreeWalk.set_thread ParallelTreeWalk.threads
       ParallelTreeWalk._work_queue ParallelTreeWalk.unfinished_tasks
       ParallelTreeWalk.output].
  unfold ParallelTreeWalk.set_thread.
  cbn [ParallelTreeWalk.threads ParallelTreeWalk._work_queue
       ParallelTreeWalk.unfinished_tasks ParallelTreeWalk.output].
  rewrite H2. reflexivity.
Qed.

Lemma walk_listing_failure_witness :
  ParallelTreeWalk.run_schedule sample_callback sample_listdir [0; 0]%nat
    {| ParallelTreeWalk._work_queue := ["/srv/data"];
       ParallelTreeWalk.unfinished_tasks := 1;
       ParallelTreeWalk.threads := [ParallelTreeWalk.Waiting];
       ParallelTreeWalk.output := [] |}
  = {| ParallelTreeWalk._work_queue := [];
       ParallelTreeWalk.unfinished_tasks := 0;
       ParallelTreeWalk.threads := [ParallelTreeWalk.Waiting];
       ParallelTreeWalk.output :=
         [AclConverter.failure_report "/srv/data"
            (str_exn (OtherError "[Errno 13] Permission denied: '/srv/data'"))] |}.
Proof.
  exact (walk_listing_failure strip_ascii sample_tree dry sample_listdir 0
           {| ParallelTreeWalk._work_queue := ["/srv/data"];
              ParallelTreeWalk.unfinished_tasks := 1;
              ParallelTreeWalk.threads := [ParallelTreeWalk.Waiting];
              ParallelTreeWalk.output := [] |}
           "/srv/data" [] _ 0 eq_refl eq_refl eq_refl eq_refl).
Defined.

Lemma acl_callback_answers (strip : string -> string) (world : AclConverter.World)
      (options : AclConverter.Options) (path : string) :
  exists tr,
    ParallelTreeWalk.cb_processEntry (acl_callback strip world options) path
    = (Return (ParallelTreeWalk.expandable (acl_callback strip world options) path),
       tr).
Proof.
  unfold ParallelTreeWalk.expandable.
  cbn [acl_callback ParallelTreeWalk.cb_processEntry].
  rewrite processEntry_unfold.
  destruct (negb (AclConverter.islink world path) && AclConverter.isdir world path);
    [|now exists []].
  destruct (AclConverter._processDirectory strip world options path) as [[u|e] tr];
    eexists; reflexivity.
Qed.

Lemma nth_error_update {A} (i : nat) (x old : A) (l : list A) :
  nth_error l i = Some old -> nth_error (ParallelTreeWalk.update i x l) i = Some x.
Proof.
  revert i. induction l as [|y l IH]; intros [|i] H; try discriminate; cbn.
  - reflexivity.
  - exact (IH i H).
Qed.

(** X26.  A thread inside the [for] loop, left to run, queues exactly the
    children for which [processEntry] answers [True], as full paths and in
    the order of the listing; the counter grows by their number. *)
Theorem walk_expands_children
        (strip : string -> string) (world : AclConverter.World)
        (options : AclConverter.Options)
        (listdir : string -> result (list string))
        (i : nat) (path : string) (dentries : list string)
        (s : ParallelTreeWalk.state) :
  nth_error (ParallelTreeWalk.threads s) i
  = Some (ParallelTreeWalk.Expanding path dentries) ->
  let cb := acl_callback strip world options in
  let children :=
    filter (ParallelTreeWalk.expandable cb) (map (posixpath.join path) dentries) in
  let s' := ParallelTreeWalk.run_schedule cb listdir
              (repeat i (List.length dentries)) s in
  ParallelTreeWalk._work_queue s'
  = (ParallelTreeWalk._work_queue s ++ children)%list
  /\ ParallelTreeWalk.unfinished_tasks s'
     = (ParallelTreeWalk.unfinished_tasks s + List.length children)%nat
  /\ nth_error (ParallelTreeWalk.threads s') i
     = Some (ParallelTreeWalk.Expanding path []).
Proof.
  intros Hi cb. revert s Hi.
  induction dentries as [|d ds IH]; intros s Hi.
  - cbn. rewrite app_nil_r, Nat.add_0_r. now repeat split.
  - destruct (acl_callback_answers strip world options (posixpath.join path d))
      as [tr Htr].
    fold cb in Htr.
    assert (Hstep : ParallelTreeWalk.step_thread cb listdir i s
                    = Some (ParallelTreeWalk.set_thread i
                              (ParallelTreeWalk.Expanding path ds)
                              (if ParallelTreeWalk.expandable cb (posixpath.join path d)
                               then ParallelTreeWalk.put (posixpath.join path d)
                                      (ParallelTreeWalk.log tr s)
                               else ParallelTreeWalk.log tr s))).
    { unfold ParallelTreeWalk.step_thread. rewrite Hi, Htr.
      now destruct (ParallelTreeWalk.expandable cb (posixpath.join path d)). }
    cbn [List.length repeat ParallelTreeWalk.run_schedule map filter].
    rewrite Hstep.
    match goal with
    | |- context [ParallelTreeWalk.run_schedule _ _ _ ?s1] =>
        destruct (IH s1) as (Hq & Hu & Ht)
    end.
    { cbn [ParallelTreeWalk.set_thread ParallelTreeWalk.threads].
      apply (nth_error_update i _ (ParallelTreeWalk.Expanding path (d :: ds))).
      now destruct (ParallelTreeWalk.expandable cb (posixpath.join path d)). }
    cbn zeta in *. rewrite Hq, Hu, Ht.
    destruct (ParallelTreeWalk.expandable cb (posixpath.join path d));
      cbn [ParallelTreeWalk.set_thread ParallelTreeWalk.put ParallelTreeWalk.log
           ParallelTreeWalk._work_queue ParallelTreeWalk.unfinished_tasks
           List.length];
      rewrite <- ?app_assoc; repeat split; cbn [app]; try reflexivity; lia.
Qed.

Lemma walk_expands_children_witness :
  let s := {| ParallelTreeWalk._work_queue := [];
              ParallelTreeWalk.unfinished_tasks := 1;
              ParallelTreeWalk.threads :=
                [ParallelTreeWalk.Expanding "/srv" ["data"; "link"; "notes.txt"]];
              ParallelTreeWalk.output := [] |} in
  let s' := ParallelTreeWalk.run_schedule sample_callback sample_listdir
              [0; 0; 0]%nat s in
  ParallelTreeWalk._work_queue s' = ["/srv/data"]
  /\ ParallelTreeWalk.unfinished_tasks s' = 2%nat
  /\ nth_error (ParallelTreeWalk.threads s') 0
     = Some (ParallelTreeWalk.Expanding "/srv" []).
Proof.
  exact (walk_expands_children strip_ascii sample_tree dry sample_listdir 0 "/srv"
           ["data"; "link"; "notes.txt"]
           {| ParallelTreeWalk._work_queue := [];
              ParallelTreeWalk.unfinished_tasks := 1;
              ParallelTreeWalk.threads :=
                [ParallelTreeWalk.Expanding "/srv" ["data"; "link"; "notes.txt"]];
              ParallelTreeWalk.output := [] |} eq_refl).
Defined.
